(** * director_analysis.py: loader, analyzers and driver

    A shallow embedding of [src/director_analysis.py].  Python objects that
    the program passes by reference (the loaded dataset, the lists built by
    the analyzers) live in a heap indexed by locations; every function of the
    source is a computation in a state-and-exception monad over a [world]
    made of that heap, the standard output, the file system and the figures
    produced through matplotlib. *)

From Stdlib Require Import ZArith PrimFloat Ascii String.
From stdpp Require Import gmap strings list pretty sorting.

Set Warnings "-inexact-float".
Open Scope Z_scope.

(** ** Data model

    The dataset follows the schema of the input file: a dictionary from
    director names to records, in insertion order.  A Python [dict] is an
    association list whose keys are pairwise distinct ([dict_wf]). *)

Inductive number :=
  | NInt (z : Z)
  | NFloat (f : float).

Definition dict (V : Type) : Type := list (string * V).

Definition dict_keys {V} (d : dict V) : list string := d.*1.

Definition dict_wf {V} (d : dict V) : Prop := NoDup (dict_keys d).

Fixpoint dict_get {V} (d : dict V) (k : string) : option V :=
  match d with
  | [] => None
  | (k', v) :: d' => if decide (k' = k) then Some v else dict_get d' k
  end.

Definition dict_contains {V} (d : dict V) (k : string) : bool :=
  bool_decide (is_Some (dict_get d k)).

Record DecadeStat := mkDecadeStat {
  ds_count : Z;
  ds_avg_rating : option number
}.

Record DirectorRecord := mkDirectorRecord {
  count_in_top1000 : Z;
  avg_rating_top1000 : number;
  decades : dict DecadeStat
}.

Definition Data : Type := dict DirectorRecord.

(** The two dictionary literals the analyzers build:
    [{"name": _, "count": _, "avg_rating": _}] and
    [{"decade": _, "count": _, "avg_rating": _}]. *)
Inductive row :=
  | DirectorRow (name : string) (count : Z) (avg_rating : number)
  | DecadeRow (decade : string) (count : Z) (avg_rating : number).

(** ** Exceptions and results *)

Inductive exn :=
  | FileNotFoundError (path : string)
  | IsADirectoryError (path : string)
  | NotADirectoryError (path : string)
  | PermissionError (path : string)
  | JSONDecodeError
  | UnicodeDecodeError
  | ValueError (literal : string)
  | KeyError (key : string)
  | TypeError
  | OSError (msg : string)
  | SystemExit (code : Z).

Inductive result (A : Type) :=
  | Return (a : A)
  | Raise (e : exn).
Arguments Return {A} a.
Arguments Raise {A} e.

(** ** Python built-ins used by the analyzers *)

(** [int(s)] for a [str] in base 10: surrounding whitespace is stripped, one
    sign is accepted, and the digits may be grouped by single underscores.
    Leading zeros are accepted.  On an ASCII string the whitespace that
    [int] strips is the tab, the line feed, the vertical tab, the form feed,
    the carriage return and the space.

    [py_int] is [int] on the strings that [plain] describes: ASCII text of
    at most 4300 characters.  Outside of them [int] also reads the decimal
    digits and the spaces of Unicode, and refuses, by default, more than
    4300 digits; a property that depends on what [int] accepts either takes
    [int] as a parameter ([analyze_decades_with]) or is stated for plain
    labels. *)

Definition is_space (a : ascii) : bool :=
  let n := nat_of_ascii a in
  ((9 <=? n)%nat && (n <=? 13)%nat) || (n =? 32)%nat.

Definition plain (s : string) : Prop :=
  Forall (λ c, (nat_of_ascii c < 128)%nat) (list_ascii_of_string s)
  ∧ (String.length s ≤ 4300)%nat.

#[global] Instance plain_dec (s : string) : Decision (plain s).
Proof. unfold plain. apply _. Defined.

Definition digit_val (a : ascii) : option Z :=
  let n := nat_of_ascii a in
  if ((48 <=? n)%nat && (n <=? 57)%nat) then Some (Z.of_nat n - 48) else None.

Fixpoint lstrip (s : list ascii) : list ascii :=
  match s with
  | c :: s' => if is_space c then lstrip s' else s
  | [] => []
  end.

Definition strip (s : list ascii) : list ascii :=
  reverse (lstrip (reverse (lstrip s))).

Fixpoint parse_digits (s : list ascii) (acc : Z) (after_digit : bool) : option Z :=
  match s with
  | [] => if after_digit then Some acc else None
  | c :: s' =>
      match digit_val c with
      | Some v => parse_digits s' (10 * acc + v) true
      | None =>
          if decide (c = "_"%char)
          then (if after_digit then parse_digits s' acc false else None)
          else None
      end
  end.

Definition py_int (s : string) : option Z :=
  match strip (list_ascii_of_string s) with
  | "+"%char :: ds => parse_digits ds 0 false
  | "-"%char :: ds => Z.opp <$> parse_digits ds 0 false
  | ds => parse_digits ds 0 false
  end.

Definition int (s : string) : result Z :=
  match py_int s with
  | Some z => Return z
  | None => Raise (ValueError s)
  end.

(** [l[:n]]: a negative stop counts from the end of the list. *)
Definition slice_to {A} (l : list A) (n : Z) : list A :=
  if decide (n < 0)
  then take (Z.to_nat (Z.of_nat (length l) + n)) l
  else take (Z.to_nat n) l.

(** [list.sort(key=..., reverse=...)] is a stable sort on the keys computed
    once per element; with [reverse=True] elements of equal key still keep
    their original order.  It is modelled by a stable insertion sort over the
    list decorated with its keys. *)

Definition key_le (reverse : bool) (a b : Z) : bool :=
  if reverse then bool_decide (b <= a) else bool_decide (a <= b).

Fixpoint insert_by {A} (reverse : bool) (x : Z * A) (l : list (Z * A)) : list (Z * A) :=
  match l with
  | [] => [x]
  | y :: l' =>
      if key_le reverse x.1 y.1 then x :: y :: l' else y :: insert_by reverse x l'
  end.

Fixpoint sort_decorated {A} (reverse : bool) (l : list (Z * A)) : list (Z * A) :=
  match l with
  | [] => []
  | x :: l' => insert_by reverse x (sort_decorated reverse l')
  end.

Fixpoint map_result {A B} (f : A → result B) (l : list A) : result (list B) :=
  match l with
  | [] => Return []
  | x :: l' =>
      match f x with
      | Raise e => Raise e
      | Return y =>
          match map_result f l' with
          | Raise e => Raise e
          | Return ys => Return (y :: ys)
          end
      end
  end.

Definition sorted_by {A} (key : A → result Z) (reverse : bool) (l : list A)
  : result (list A) :=
  match map_result key l with
  | Raise e => Raise e
  | Return ks => Return (sort_decorated reverse (zip ks l)).*2
  end.

(** Subscripting a row. *)
Definition row_count (r : row) : Z :=
  match r with
  | DirectorRow _ c _ => c
  | DecadeRow _ c _ => c
  end.

Definition row_decade (r : row) : result string :=
  match r with
  | DecadeRow d _ _ => Return d
  | DirectorRow _ _ _ => Raise (KeyError "decade")
  end.

Definition row_name (r : row) : result string :=
  match r with
  | DirectorRow n _ _ => Return n
  | DecadeRow _ _ _ => Raise (KeyError "name")
  end.

Definition row_avg_rating (r : row) : number :=
  match r with
  | DirectorRow _ _ a => a
  | DecadeRow _ _ a => a
  end.

(** ** The world

    The heap holds the objects that are shared by reference: the dataset, as
    [json.load] built it, and the lists of rows.  Numbers and strings are
    immutable and are values; so are the rows, which the program never
    updates once built.  The file system maps a path to what is there: a
    text file, a directory, a file without read permission, a file whose
    bytes are no text in the encoding of the locale, or a figure written by
    a renderer.  A path that is not in the map does not exist. *)

Definition loc := positive.

Inductive obj :=
  | ODict (d : Data)
  | OList (rows : list row).

Inductive chart :=
  | TopDirectorsChart (names : list string) (counts : list Z) (ratings : list number)
  | DecadesChart (title : string) (decades : list string) (counts : list Z)
      (ratings : list number).

Inductive file_node :=
  | RegularFile (content : string)
  | Directory
  | Unreadable
  | Undecodable
  | ImageFile (c : chart).

(** What [open(path, 'r')] returns: a file that reads as text, or one whose
    bytes do not decode. *)
Inductive file_object :=
  | TextFile (content : string)
  | BinaryFile.

Inductive plot_event :=
  | Saved (path : string) (c : chart)
  | Shown (c : chart).

Record world := mkWorld {
  heap : gmap loc obj;
  stdout : list string;
  files : gmap string file_node;
  figures : list plot_event
}.

Definition set_heap (f : gmap loc obj → gmap loc obj) (w : world) : world :=
  mkWorld (f (heap w)) (stdout w) (files w) (figures w).

Definition M (A : Type) : Type := world → result A * world.

#[global] Instance M_ret : MRet M := λ A a w, (Return a, w).

#[global] Instance M_bind : MBind M := λ A B f m w,
  match m w with
  | (Return a, w') => f a w'
  | (Raise e, w') => (Raise e, w')
  end.

Definition raise {A} (e : exn) : M A := λ w, (Raise e, w).

Definition lift {A} (r : result A) : M A := λ w, (r, w).

(** [try: m except ...: h]: [h e] is [None] when no clause matches [e]. *)
Definition try_except {A} (m : M A) (h : exn → option (M A)) : M A := λ w,
  match m w with
  | (Return a, w') => (Return a, w')
  | (Raise e, w') =>
      match h e with
      | Some k => k w'
      | None => (Raise e, w')
      end
  end.

Definition print (s : string) : M unit := λ w,
  (Return (), mkWorld (heap w) (stdout w ++ [s]) (files w) (figures w)).

Definition alloc (o : obj) : M loc := λ w,
  let l := fresh (dom (heap w)) in (Return l, set_heap (insert l o) w).

Definition get_list (l : loc) : M (list row) := λ w,
  match heap w !! l with
  | Some (OList rs) => (Return rs, w)
  | _ => (Raise TypeError, w)
  end.

Definition get_dict (l : loc) : M Data := λ w,
  match heap w !! l with
  | Some (ODict d) => (Return d, w)
  | _ => (Raise TypeError, w)
  end.

Definition store (l : loc) (o : obj) : M unit := λ w,
  (Return (), set_heap (insert l o) w).

(** [l.append(x)] *)
Definition list_append (l : loc) (x : row) : M unit :=
  rs ← get_list l; store l (OList (rs ++ [x])).

(** [l.sort(key=key, reverse=reverse)], in place *)
Definition list_sort (l : loc) (key : row → result Z) (reverse : bool) : M unit :=
  rs ← get_list l;
  rs' ← lift (sorted_by key reverse rs);
  store l (OList rs').

(** [l[:n]], a new list *)
Definition list_slice_to (l : loc) (n : Z) : M loc :=
  rs ← get_list l; alloc (OList (slice_to rs n)).

(** [data.items()], [name in data] and [data[name]] *)
Definition dict_items (data : loc) : M (list (string * DirectorRecord)) :=
  get_dict data.

Definition dict_in (data : loc) (k : string) : M bool :=
  d ← get_dict data; mret (dict_contains d k).

Definition dict_getitem (data : loc) (k : string) : M DirectorRecord :=
  d ← get_dict data;
  match dict_get d k with
  | Some v => mret v
  | None => raise (KeyError k)
  end.

Fixpoint for_each {A} (xs : list A) (body : A → M unit) : M unit :=
  match xs with
  | [] => mret ()
  | x :: xs' => body x;; for_each xs' body
  end.

(** ** The analyzers *)

Definition analyze_directors (data : loc) (top_n : Z) : M loc :=
  directors_list ← alloc (OList []);
  items ← dict_items data;
  for_each items (λ '(director, info),
    if bool_decide (count_in_top1000 info > 0)
    then list_append directors_list
           (DirectorRow director (count_in_top1000 info) (avg_rating_top1000 info))
    else mret ());;
  list_sort directors_list (λ x, Return (row_count x)) true;;
  list_slice_to directors_list top_n.

(** [analyze_decades_with int_] is the body of the function, the built-in
    [int] it calls being [int_]; [analyze_decades] is that body with the
    model of [int]. *)
Definition analyze_decades_with (int_ : string → result Z)
    (data : loc) (director_name : string) : M (option loc) :=
  present ← dict_in data director_name;
  if negb present
  then
    print ("Director " +:+ director_name +:+ " not found in data");;
    mret None
  else
    director_data ← dict_getitem data director_name;
    let decades := decades director_data in
    decades_data ← alloc (OList []);
    for_each decades (λ '(decade, info),
      keep ← (if bool_decide (decade ≠ "unknown")
              then n ← lift (int_ decade); mret (bool_decide (n > 0))
              else mret false);
      if (keep : bool)
      then list_append decades_data
             (DecadeRow decade (ds_count info)
                (match ds_avg_rating info with Some a => a | None => NInt 0 end))
      else mret ());;
    list_sort decades_data
      (λ x, match row_decade x with Return d => int_ d | Raise e => Raise e end)
      false;;
    mret (Some decades_data).

Definition analyze_decades : loc → string → M (option loc) :=
  analyze_decades_with int.

(** ** The renderers

    Drawing is delegated to matplotlib; the model records which chart is
    saved where and which chart is shown.  Creating the output directory and
    writing the image ([os.makedirs] followed by [plt.savefig]) is the part
    that may fail: [savefig path c] is the exception the two calls raise, if
    any.  It stands for both calls: it is an exception wherever
    [os.makedirs] raises, as it does on the empty directory name of a path
    without a slash and on a directory name that is taken by a file.  When
    the two calls return, the directory and the image are in the file
    system.  When they raise, the exception is that of [os.makedirs] if the
    file system shows that the directory cannot be made, and nothing is
    written; otherwise it is taken to be that of [plt.savefig], raised once
    the directory is made.  The permissions of directories are not part of
    the file system of the world, so that no property says what the files
    are after a failed save. *)

Definition truthy (s : string) : bool := negb (bool_decide (s = "")).

Definition record_figure (e : plot_event) : M unit := λ w,
  (Return (), mkWorld (heap w) (stdout w) (files w) (figures w ++ [e])).

(** Paths, as [os.path] reads them on POSIX. *)
Definition is_sep (c : ascii) : bool := bool_decide (c = "/"%char).

Fixpoint drop_while (f : ascii → bool) (s : list ascii) : list ascii :=
  match s with
  | c :: s' => if f c then drop_while f s' else s
  | [] => []
  end.

(** [os.path.dirname(p)]: the part before the last slash, without its
    trailing slashes unless it is made of slashes only. *)
Definition dirname (p : string) : string :=
  let head := drop_while (λ c, negb (is_sep c)) (reverse (list_ascii_of_string p)) in
  if forallb is_sep head
  then string_of_list_ascii (reverse head)
  else string_of_list_ascii (reverse (drop_while is_sep head)).

(** The proper prefixes of a path that end just before a slash: the
    directories that lead to it. *)
Fixpoint prefixes_before_sep (seen : list ascii) (s : list ascii) : list string :=
  match s with
  | [] => []
  | c :: s' =>
      (if is_sep c && negb (bool_decide (seen = []))
       then [string_of_list_ascii (reverse seen)]
       else [])
      ++ prefixes_before_sep (c :: seen) s'
  end.

Definition path_ancestors (p : string) : list string :=
  prefixes_before_sep [] (list_ascii_of_string p).

(** The file system after [os.makedirs(d, exist_ok=True)] has returned:
    [d] and the directories that lead to it exist. *)
Definition make_dirs (d : string) (fs : gmap string file_node) : gmap string file_node :=
  if bool_decide (d = "") then fs
  else foldr (λ a m, <[a := Directory]> m) fs (d :: path_ancestors d).

Definition is_dot (c : ascii) : bool := bool_decide (c = "."%char).

Fixpoint take_while (f : ascii → bool) (s : list ascii) : list ascii :=
  match s with
  | c :: s' => if f c then c :: take_while f s' else []
  | [] => []
  end.

(** [os.path.splitext(p)[1]]: the last component of the path from its last
    dot on; empty when the component has no dot, or no dot after a character
    that is not a dot. *)
Definition file_ext (p : string) : string :=
  let base := take_while (λ c, negb (is_sep c)) (reverse (list_ascii_of_string p)) in
  match drop_while (λ c, negb (is_dot c)) base with
  | dot :: before =>
      if forallb is_dot before then EmptyString
      else string_of_list_ascii
             (dot :: reverse (take_while (λ c, negb (is_dot c)) base))
  | [] => EmptyString
  end.

(** The file [plt.savefig(p)] writes.  The format is read from the extension
    of [p]; when there is none, the default format is used and its extension
    is appended to [p] without its trailing dots. *)
Definition has_format (p : string) : bool :=
  negb (bool_decide (file_ext p = EmptyString) || bool_decide (file_ext p = ".")).

Definition figure_file (p : string) : string :=
  if has_format p then p
  else string_of_list_ascii
         (reverse (drop_while is_dot (reverse (list_ascii_of_string p))))
       +:+ ".png".

Definition is_file (n : file_node) : bool :=
  match n with
  | Directory => false
  | _ => true
  end.

(** [os.makedirs(d, exist_ok=True)] cannot return when [d] is empty, or
    when [d] or one of the directories that lead to it is there and is not
    a directory. *)
Definition dirs_blocked (d : string) (fs : gmap string file_node) : bool :=
  bool_decide (d = EmptyString)
  || existsb (λ a, match fs !! a with Some n => is_file n | None => false end)
       (d :: path_ancestors d).

Definition set_files (f : gmap string file_node → gmap string file_node) (w : world)
  : world :=
  mkWorld (heap w) (stdout w) (f (files w)) (figures w).

(** The effect of [os.makedirs(os.path.dirname(p), exist_ok=True)] followed
    by [plt.savefig(p)], when both return. *)
Definition saved_files (p : string) (c : chart) (fs : gmap string file_node)
  : gmap string file_node :=
  <[figure_file p := ImageFile c]> (make_dirs (dirname p) fs).

Definition get_rows (view : loc) : M (list row) := get_list view.

Section Driver.

(** The environment of a run: the parser of the json module, [None] on text
    that is not well-formed JSON (input files are taken to follow the schema
    of the data model); the backend that writes a figure; and the directory
    of the script. *)
Variable json_loads : string → option Data.
Variable savefig : string → chart → option exn.
Variable script_dir : string.

(** [os.makedirs(os.path.dirname(p), exist_ok=True)], the first call of a
    save of the chart [c] at [p]. *)
Definition os_makedirs (p : string) (c : chart) : M unit := λ w,
  match savefig p c with
  | Some e =>
      if dirs_blocked (dirname p) (files w) then (Raise e, w)
      else (Return (), set_files (make_dirs (dirname p)) w)
  | None => (Return (), set_files (make_dirs (dirname p)) w)
  end.

(** [plt.savefig(p)], the second call. *)
Definition plt_savefig (p : string) (c : chart) : M unit := λ w,
  match savefig p c with
  | Some e => (Raise e, w)
  | None =>
      (Return (),
       mkWorld (heap w) (stdout w) (<[figure_file p := ImageFile c]> (files w))
         (figures w ++ [Saved p c]))
  end.

(** The end of both renderers, from [if output_path:] on. *)
Definition save_and_show (c : chart) (output_path : option string) : M unit :=
  match output_path with
  | Some p =>
      if truthy p
      then
        os_makedirs p c;;
        plt_savefig p c;;
        print ("Visualization saved to " +:+ p)
      else mret ()
  | None => mret ()
  end;;
  record_figure (Shown c).

Definition visualize_top_directors (directors_data : loc)
    (output_path : option string) : M unit :=
  rows ← get_rows directors_data;
  names ← lift (map_result row_name rows);
  let counts := row_count <$> rows in
  let ratings := row_avg_rating <$> rows in
  save_and_show (TopDirectorsChart names counts ratings) output_path.

Definition visualize_director_decades (decades_data : option loc)
    (director_name : string) (output_path : option string) : M unit :=
  match decades_data with
  | None => mret ()
  | Some view =>
      rows ← get_rows view;
      if bool_decide (rows = [])
      then mret ()
      else
        decades ← lift (map_result row_decade rows);
        let counts := row_count <$> rows in
        let ratings := row_avg_rating <$> rows in
        save_and_show
          (DecadesChart (director_name +:+ ": Movies and Ratings by Decade")
             decades counts ratings)
          output_path
  end.

(** ** The loader *)

(** [open(path, 'r')] on the file system of the world.  A path that does
    not exist is not found, unless one of the directories that lead to it is
    a file. *)
Definition under_a_file (fs : gmap string file_node) (path : string) : bool :=
  existsb (λ a, match fs !! a with Some n => is_file n | None => false end)
    (path_ancestors path).

Definition open_read (path : string) : M file_object := λ w,
  match files w !! path with
  | None =>
      if under_a_file (files w) path
      then (Raise (NotADirectoryError path), w)
      else (Raise (FileNotFoundError path), w)
  | Some Directory => (Raise (IsADirectoryError path), w)
  | Some Unreadable => (Raise (PermissionError path), w)
  | Some (RegularFile s) => (Return (TextFile s), w)
  | Some Undecodable => (Return BinaryFile, w)
  | Some (ImageFile _) => (Return BinaryFile, w)
  end.

(** [json.load(f)]: reading the file decodes it, then the text is parsed. *)
Definition json_load (f : file_object) : M loc :=
  match f with
  | BinaryFile => raise UnicodeDecodeError
  | TextFile text =>
      match json_loads text with
      | Some d => alloc (ODict d)
      | None => raise JSONDecodeError
      end
  end.

Definition sys_exit {A} (code : Z) : M A := raise (SystemExit code).

(** [load_data_with open_ json_load_] is the body of the function, the
    built-ins [open] and [json.load] it calls being [open_] and
    [json_load_]; [load_data] is that body on the file system of the
    world. *)
Definition load_data_with {F} (open_ : string → M F) (json_load_ : F → M loc)
    (json_path : string) : M loc :=
  try_except
    (f ← open_ json_path; json_load_ f)
    (λ e,
      match e with
      | FileNotFoundError _ => Some (
          print ("Error: Could not find file at " +:+ json_path);;
          print "Please make sure the file exists or specify the correct path using --data";;
          sys_exit 1)
      | JSONDecodeError => Some (
          print ("Error: File at " +:+ json_path +:+ " is not a valid JSON file");;
          sys_exit 1)
      | _ => None
      end).

Definition load_data (json_path : string) : M loc :=
  load_data_with open_read json_load json_path.

(** ** The driver *)

Record Args := mkArgs {
  arg_data : string;
  arg_director : option string;
  arg_top_n : Z;
  arg_output_dir : string
}.

Definition isabs (p : string) : bool :=
  match p with
  | String "/" _ => true
  | _ => false
  end.

Definition ends_with_sep (p : string) : bool :=
  match reverse (list_ascii_of_string p) with
  | "/"%char :: _ => true
  | _ => false
  end.

Definition path_join (a b : string) : string :=
  if isabs b then b
  else if bool_decide (a = "") || ends_with_sep a then a +:+ b
  else a +:+ "/" +:+ b.

Fixpoint replace_char (old new : ascii) (s : string) : string :=
  match s with
  | EmptyString => EmptyString
  | String c s' =>
      String (if decide (c = old) then new else c) (replace_char old new s')
  end.

(** Truth value of what [analyze_decades] returned: [None] and the empty
    list are false. *)
Definition truthy_view (v : option loc) : M bool :=
  match v with
  | None => mret false
  | Some l => rows ← get_rows l; mret (negb (bool_decide (rows = [])))
  end.

Definition main (args : Args) : M unit :=
  let data_path :=
    if negb (isabs (arg_data args)) then path_join script_dir (arg_data args)
    else arg_data args in
  let output_dir :=
    if truthy (arg_output_dir args) && negb (isabs (arg_output_dir args))
    then path_join script_dir (arg_output_dir args)
    else arg_output_dir args in
  print ("Loading data from " +:+ data_path +:+ "...");;
  data ← load_data data_path;
  print "Data loaded successfully!";;
  print ("Analyzing top " +:+ pretty (arg_top_n args) +:+ " directors...");;
  top_directors ← analyze_directors data (arg_top_n args);
  let output_path :=
    if truthy output_dir then Some (path_join output_dir "top_directors.png")
    else None in
  visualize_top_directors top_directors output_path;;
  match arg_director args with
  | Some director =>
      if truthy director
      then
        print ("Analyzing " +:+ director +:+ "'s career by decade...");;
        decades_data ← analyze_decades data director;
        nonempty ← truthy_view decades_data;
        if (nonempty : bool)
        then
          let decade_output_path :=
            if truthy output_dir
            then
              let safe_name := replace_char "/" "_" (replace_char " " "_" director) in
              Some (path_join output_dir (safe_name +:+ "_decades.png"))
            else None in
          visualize_director_decades decades_data director decade_output_path
        else print ("No decade data available for " +:+ director)
      else mret ()
  | None => mret ()
  end.

(** Exit status of the process that runs a computation to its end. *)
Definition exit_status {A} (r : result A) : Z :=
  match r with
  | Return _ => 0
  | Raise (SystemExit code) => code
  | Raise _ => 1
  end.

End Driver.

(** * Specification vocabulary

    The vocabulary of the properties and of their proofs: what the caller
    observes of a returned list, the contents of the analyzers' lists at each
    stage, the messages of the program, and a frame predicate. *)

(** ** Observations *)

(** What the caller reads from the list a computation returned. *)
Definition view_of (r : result loc * world) : option (list row) :=
  match r with
  | (Return l, w') =>
      match heap w' !! l with
      | Some (OList rs) => Some rs
      | _ => None
      end
  | (Raise _, _) => None
  end.

(** The sequence [analyze_directors] returns. *)
Definition top_directors (data : loc) (n : Z) (w : world) : option (list row) :=
  view_of (analyze_directors data n w).

(** The sequence [analyze_decades] returns; [None] when the call returned
    [None] or raised. *)
Definition decades_for (data : loc) (name : string) (w : world) : option (list row) :=
  match analyze_decades data name w with
  | (Return (Some l), w') => view_of (Return l, w')
  | _ => None
  end.

Definition with_stdout (w : world) (lines : list string) : world :=
  mkWorld (heap w) (stdout w ++ lines) (files w) (figures w).

(** ** The sort through a key that never raises *)

Definition keys_ordered {A} (reverse : bool) (x y : Z * A) : Prop :=
  key_le reverse x.1 y.1 = true.

Definition decorate {A} (k : A → Z) (l : list A) : list (Z * A) :=
  (λ a, (k a, a)) <$> l.

Definition sort_with {A} (k : A → Z) (reverse : bool) (l : list A) : list A :=
  (sort_decorated reverse (decorate k l)).*2.

(** ** Loops that append the selected elements to a list

    Both analyzers run a loop whose body decides, for each item, whether a
    row is appended to a list; [select_rows] is the list such a loop builds
    and the exception that stops it, if any. *)

Definition select_into {A} (l : loc) (sel : A → result (option row)) (x : A) : M unit :=
  o ← lift (sel x);
  match o with
  | Some r => list_append l r
  | None => mret ()
  end.

Fixpoint select_rows {A} (sel : A → result (option row)) (xs : list A)
    (acc : list row) : result unit * list row :=
  match xs with
  | [] => (Return (), acc)
  | x :: xs' =>
      match sel x with
      | Raise e => (Raise e, acc)
      | Return None => select_rows sel xs' acc
      | Return (Some r) => select_rows sel xs' (acc ++ [r])
      end
  end.

(** ** Stages of analyze_directors *)

Definition qualifies (p : string * DirectorRecord) : Prop :=
  count_in_top1000 p.2 > 0.

Definition director_row (p : string * DirectorRecord) : row :=
  DirectorRow p.1 (count_in_top1000 p.2) (avg_rating_top1000 p.2).

(** [directors_list] after the loop, and after the sort. *)
Definition directors_list (d : Data) : list row :=
  director_row <$> filter qualifies d.

Definition ranking (d : Data) : list row :=
  sort_with row_count true (directors_list d).

(** The heap a call leaves: the sorted [directors_list] and its slice are
    two new objects. *)
Definition heap_after_directors (h : gmap loc obj) (d : Data) (n : Z) : gmap loc obj :=
  let h1 := <[fresh (dom h) := OList (ranking d)]> h in
  <[fresh (dom h1) := OList (slice_to (ranking d) n)]> h1.

(** ** Stages of analyze_decades *)

(** The integer a label reads as, 0 when it reads as none. *)
Definition decade_value (label : string) : Z := default 0 (py_int label).

(** The decade-label invariant of the data model. *)
Definition valid_label (label : string) : Prop :=
  label = "unknown" ∨ is_Some (py_int label).

Definition keeps (p : string * DecadeStat) : Prop :=
  p.1 ≠ "unknown" ∧ decade_value p.1 > 0.

Definition decade_row (p : string * DecadeStat) : row :=
  DecadeRow p.1 (ds_count p.2)
    (match ds_avg_rating p.2 with Some a => a | None => NInt 0 end).

Definition decade_num (r : row) : Z :=
  match r with
  | DecadeRow label _ _ => decade_value label
  | DirectorRow _ _ _ => 0
  end.

(** The key of the sort, [int(x["decade"])]. *)
Definition decade_key (x : row) : result Z :=
  match row_decade x with
  | Return label => int label
  | Raise e => Raise e
  end.

(** The test of the loop, [decade != "unknown" and int(decade) > 0]. *)
Definition decade_sel (p : string * DecadeStat) : result (option row) :=
  if bool_decide (p.1 ≠ "unknown")
  then
    match int p.1 with
    | Return n => Return (if bool_decide (n > 0) then Some (decade_row p) else None)
    | Raise e => Raise e
    end
  else Return None.

(** The same for any built-in [int_]: the labels [int_] reads, the test and
    the key with [int_], the row the loop appends for a decade, if any, and
    the integer the sort gives a row. *)
Definition parses (int_ : string → result Z) (label : string) : Prop :=
  ∃ z, int_ label = Return z.

Definition decade_sel_with (int_ : string → result Z) (p : string * DecadeStat)
  : result (option row) :=
  if bool_decide (p.1 ≠ "unknown")
  then
    match int_ p.1 with
    | Return n => Return (if bool_decide (n > 0) then Some (decade_row p) else None)
    | Raise e => Raise e
    end
  else Return None.

Definition decade_key_with (int_ : string → result Z) (x : row) : result Z :=
  match row_decade x with
  | Return label => int_ label
  | Raise e => Raise e
  end.

Definition decade_kept_with (int_ : string → result Z) (p : string * DecadeStat)
  : option row :=
  match decade_sel_with int_ p with
  | Return o => o
  | Raise _ => None
  end.

Definition key_value_with (int_ : string → result Z) (x : row) : Z :=
  match decade_key_with int_ x with
  | Return z => z
  | Raise _ => 0
  end.

(** [decades_data] after the loop, and after the sort. *)
Definition decades_list (info : DirectorRecord) : list row :=
  decade_row <$> filter keeps (decades info).

Definition decades_sorted (info : DirectorRecord) : list row :=
  sort_with decade_num false (decades_list info).

(** ** Messages and paths *)

Definition not_found_message (director_name : string) : string :=
  "Director " +:+ director_name +:+ " not found in data".


Definition not_found_messages (json_path : string) : list string :=
  ["Error: Could not find file at " +:+ json_path;
   "Please make sure the file exists or specify the correct path using --data"].

Definition invalid_message (json_path : string) : string :=
  "Error: File at " +:+ json_path +:+ " is not a valid JSON file".

(** The path [main] loads, relative paths being resolved from the script's
    directory. *)
Definition data_path (script_dir : string) (args : Args) : string :=
  if negb (isabs (arg_data args)) then path_join script_dir (arg_data args)
  else arg_data args.

Definition row_label (r : row) : string :=
  match r with
  | DirectorRow name _ _ => name
  | DecadeRow decade _ _ => decade
  end.

(** ** Framing

    [frames h0 m Q]: started in any heap that extends [h0], the computation
    [m] leaves every object of [h0] as it is, whether it returns or raises,
    and what it returns satisfies [Q]. *)

Definition frames {A} (h0 : gmap loc obj) (m : M A) (Q : A → Prop) : Prop :=
  ∀ w, h0 ⊆ heap w →
    h0 ⊆ heap (m w).2 ∧ ∀ a, (m w).1 = Return a → Q a.

Definition any {A} : A → Prop := λ _, True.

(** ** Example datasets and worlds *)

(** A world whose heap holds the dataset [d] at location 1 and nothing
    else. *)
Definition world_with (d : Data) : world :=
  mkWorld {[ 1%positive := ODict d ]} [] ∅ [].

(** The dataset of the specification's worked example. *)
Definition example_data : Data :=
  [("A", mkDirectorRecord 5 (NFloat 8.2)
     [("1990", mkDecadeStat 3 (Some (NFloat 8.0)));
      ("2000", mkDecadeStat 2 (Some (NFloat 8.5)));
      ("unknown", mkDecadeStat 1 None)])].

(** Four directors: two with the same count, one that does not qualify. *)
Definition tie_data : Data :=
  [("X", mkDirectorRecord 3 (NFloat 7.5) []);
   ("N", mkDirectorRecord 0 (NInt 0) []);
   ("Y", mkDirectorRecord 5 (NFloat 8.1) []);
   ("Z", mkDirectorRecord 3 (NFloat 7.9) [])].

(** One director whose decade labels ["1990"] and ["01990"] are distinct
    keys that read as the same integer. *)
Definition same_decade_data : Data :=
  [("A", mkDirectorRecord 2 (NFloat 8.0)
     [("1990", mkDecadeStat 1 (Some (NFloat 8.0)));
      ("01990", mkDecadeStat 1 None)])].

(** One director with a decade label that reads as no integer. *)
Definition bad_label_data : Data :=
  [("A", mkDirectorRecord 2 (NFloat 8.0)
     [("1990", mkDecadeStat 1 (Some (NFloat 8.0)));
      ("199x", mkDecadeStat 1 None)])].

(** A file system in which [/data] is a directory. *)
Definition dir_world : world :=
  mkWorld ∅ [] {[ "/data" := Directory ]} [].

(** A run of the script installed in [/app], asked for a director that the
    dataset does not have. *)
Definition example_args : Args :=
  mkArgs "data/integrated_directors.json" (Some "Nobody") 15 "examples".

Definition example_disk : world :=
  mkWorld ∅ [] {[ "/app/data/integrated_directors.json" := RegularFile "{}" ]} [].

(** ** Rows, charts and the stages of main *)

Definition is_director_row (r : row) : Prop :=
  match r with
  | DirectorRow _ _ _ => True
  | DecadeRow _ _ _ => False
  end.

Definition is_decade_row (r : row) : Prop :=
  match r with
  | DecadeRow _ _ _ => True
  | DirectorRow _ _ _ => False
  end.

(** The charts the renderers draw from a view. *)
Definition top_chart (rows : list row) : chart :=
  TopDirectorsChart (row_label <$> rows) (row_count <$> rows) (row_avg_rating <$> rows).

Definition decades_chart (director_name : string) (rows : list row) : chart :=
  DecadesChart (director_name +:+ ": Movies and Ratings by Decade")
    (row_label <$> rows) (row_count <$> rows) (row_avg_rating <$> rows).

(** Where a renderer saves its figure: [if output_path:] is false for [None]
    and for the empty string. *)
Definition save_target (output_path : option string) : option string :=
  match output_path with
  | Some p => if truthy p then Some p else None
  | None => None
  end.

Definition saved_message (p : string) : string := "Visualization saved to " +:+ p.

(** The world after a figure was saved, if asked, and shown. *)
Definition rendered (w : world) (c : chart) (output_path : option string) : world :=
  match save_target output_path with
  | Some p =>
      mkWorld (heap w) (stdout w ++ [saved_message p]) (saved_files p c (files w))
        (figures w ++ [Saved p c; Shown c])
  | None => mkWorld (heap w) (stdout w) (files w) (figures w ++ [Shown c])
  end.

Definition render_events (c : chart) (output_path : option string) : list plot_event :=
  match save_target output_path with
  | Some p => [Saved p c; Shown c]
  | None => [Shown c]
  end.


(** The output directory [main] uses, the paths it passes to the renderers,
    and the file name it derives from a director's name. *)
Definition output_dir_of (script_dir : string) (args : Args) : string :=
  if truthy (arg_output_dir args) && negb (isabs (arg_output_dir args))
  then path_join script_dir (arg_output_dir args)
  else arg_output_dir args.

Definition top_output_path (script_dir : string) (args : Args) : option string :=
  if truthy (output_dir_of script_dir args)
  then Some (path_join (output_dir_of script_dir args) "top_directors.png")
  else None.

Definition safe_name (director : string) : string :=
  replace_char "/" "_" (replace_char " " "_" director).

Definition has_char (c : ascii) (s : string) : Prop := c ∈ list_ascii_of_string s.

Definition decade_output_path (script_dir : string) (args : Args) (director : string)
  : option string :=
  if truthy (output_dir_of script_dir args)
  then Some (path_join (output_dir_of script_dir args)
               (safe_name director +:+ "_decades.png"))
  else None.

(** The lines [main] prints before and after the first chart. *)
Definition loading_lines (script_dir : string) (args : Args) : list string :=
  ["Loading data from " +:+ data_path script_dir args +:+ "...";
   "Data loaded successfully!";
   "Analyzing top " +:+ pretty (arg_top_n args) +:+ " directors..."].





(** * Properties *)

(** ** The sort: permutation, order, stability *)

Section Sort.
Context {A : Type}.
Implicit Types (x y : Z * A) (l : list (Z * A)) (reverse : bool).

Lemma key_le_total reverse a b : key_le reverse a b = false → key_le reverse b a = true.
Proof.
  unfold key_le. destruct reverse; intros H%bool_decide_eq_false;
    apply bool_decide_eq_true; lia.
Qed.

Lemma key_le_trans reverse a b c :
  key_le reverse a b = true → key_le reverse b c = true → key_le reverse a c = true.
Proof.
  unfold key_le. destruct reverse;
    intros H1%bool_decide_eq_true H2%bool_decide_eq_true;
    apply bool_decide_eq_true; lia.
Qed.

Lemma insert_by_perm reverse x l : insert_by reverse x l ≡ₚ x :: l.
Proof.
  induction l as [|y l IH]; simpl; [done|].
  destruct (key_le reverse x.1 y.1); [done|].
  rewrite IH. apply Permutation_swap.
Qed.

Lemma sort_decorated_perm reverse l : sort_decorated reverse l ≡ₚ l.
Proof.
  induction l as [|x l IH]; simpl; [done|].
  by rewrite insert_by_perm, IH.
Qed.

Lemma insert_by_sorted reverse x l :
  StronglySorted (keys_ordered reverse) l →
  StronglySorted (keys_ordered reverse) (insert_by reverse x l).
Proof.
  induction 1 as [|y l Hl IH Hy]; simpl.
  - repeat constructor.
  - destruct (key_le reverse x.1 y.1) eqn:Hxy.
    + constructor; [by constructor|].
      constructor; [done|].
      eapply Forall_impl; [exact Hy|].
      intros z Hz. unfold keys_ordered in *. by eapply key_le_trans.
    + constructor; [done|].
      rewrite insert_by_perm. constructor; [|done].
      by apply key_le_total.
Qed.

Lemma sort_decorated_sorted reverse l :
  StronglySorted (keys_ordered reverse) (sort_decorated reverse l).
Proof.
  induction l as [|x l IH]; simpl; [constructor|by apply insert_by_sorted].
Qed.

Lemma key_le_refl reverse a : key_le reverse a a = true.
Proof. unfold key_le. destruct reverse; apply bool_decide_eq_true; lia. Qed.

Lemma key_le_antisym reverse a b :
  key_le reverse a b = true → key_le reverse b a = true → a = b.
Proof.
  unfold key_le. destruct reverse;
    intros H1%bool_decide_eq_true H2%bool_decide_eq_true; lia.
Qed.

(** Stability: among the elements of one key, the order is the input's. *)
Lemma insert_by_stable reverse k x l :
  filter (λ y, y.1 = k) (insert_by reverse x l) = filter (λ y, y.1 = k) (x :: l).
Proof.
  induction l as [|y l IH]; simpl; [done|].
  destruct (key_le reverse x.1 y.1) eqn:Hxy; [done|].
  rewrite filter_cons, IH, !filter_cons.
  destruct (decide (y.1 = k)) as [Hy|Hy], (decide (x.1 = k)) as [Hx|Hx]; try done.
  rewrite Hx, Hy, key_le_refl in Hxy. done.
Qed.

Lemma sort_decorated_stable reverse k l :
  filter (λ y, y.1 = k) (sort_decorated reverse l) = filter (λ y, y.1 = k) l.
Proof.
  induction l as [|x l IH]; simpl; [done|].
  by rewrite insert_by_stable, !filter_cons, IH.
Qed.

End Sort.

Lemma map_result_total {A B} (f : A → result B) (g : A → B) (l : list A) :
  (∀ x, x ∈ l → f x = Return (g x)) → map_result f l = Return (g <$> l).
Proof.
  induction l as [|x l IH]; intros Hf; simpl; [done|].
  rewrite Hf by left. rewrite IH; [done|].
  intros y Hy. apply Hf. by right.
Qed.

Lemma filter_fmap {A B} (f : A → B) (P : B → Prop) `{!∀ y, Decision (P y)}
    (l : list A) :
  filter P (f <$> l) = f <$> filter (λ x, P (f x)) l.
Proof.
  induction l as [|x l IH]; [done|].
  rewrite fmap_cons, !filter_cons. case_decide; by rewrite ?fmap_cons, IH.
Qed.

Lemma filter_ext_Forall {A} (P1 P2 : A → Prop)
    `{!∀ x, Decision (P1 x), !∀ x, Decision (P2 x)} (l : list A) :
  Forall (λ x, P1 x ↔ P2 x) l → filter P1 l = filter P2 l.
Proof.
  induction 1 as [|x l Hx Hl IH]; [done|].
  rewrite !filter_cons, IH.
  destruct (decide (P1 x)), (decide (P2 x)); [done| | |done]; exfalso; tauto.
Qed.

Lemma StronglySorted_and {A} (R : relation A) (P : A → Prop) (l : list A) :
  StronglySorted R l → Forall P l →
  StronglySorted (λ x y, R x y ∧ P x ∧ P y) l.
Proof.
  induction 1 as [|x l Hl IH Hx]; intros HP; [constructor|].
  apply Forall_cons in HP as [HPx HPl].
  constructor; [by apply IH|].
  apply Forall_forall. intros y Hy. repeat split; [|done|].
  - by eapply Forall_forall in Hx.
  - by eapply Forall_forall in HPl.
Qed.

Section SortWith.
Context {A : Type} (k : A → Z).
Implicit Types (l : list A) (reverse : bool).

Lemma zip_decorate l : zip (k <$> l) l = decorate k l.
Proof. induction l as [|x l IH]; [done|]. simpl. by f_equal. Qed.

Lemma decorate_snd l : (decorate k l).*2 = l.
Proof. induction l as [|x l IH]; [done|]. simpl. by f_equal. Qed.

Lemma sorted_by_total (key : A → result Z) reverse l :
  (∀ x, x ∈ l → key x = Return (k x)) →
  sorted_by key reverse l = Return (sort_with k reverse l).
Proof.
  intros Hk. unfold sorted_by, sort_with.
  by rewrite (map_result_total key k l Hk), zip_decorate.
Qed.

Lemma sort_with_perm reverse l : sort_with k reverse l ≡ₚ l.
Proof.
  unfold sort_with. by rewrite sort_decorated_perm, decorate_snd.
Qed.

Lemma sort_with_length reverse l : length (sort_with k reverse l) = length l.
Proof. by rewrite sort_with_perm. Qed.

Lemma sort_decorated_keys reverse l :
  Forall (λ p, p.1 = k p.2) (sort_decorated reverse (decorate k l)).
Proof.
  rewrite sort_decorated_perm. unfold decorate.
  apply Forall_fmap, Forall_forall. done.
Qed.

Lemma sort_with_sorted reverse l :
  StronglySorted (λ a b, key_le reverse (k a) (k b) = true) (sort_with k reverse l).
Proof.
  unfold sort_with.
  eapply StronglySorted_fmap;
    [|exact (StronglySorted_and _ _ _ (sort_decorated_sorted reverse _)
               (sort_decorated_keys reverse l))].
  intros x y (Hxy & Hx & Hy). unfold keys_ordered in Hxy.
  by rewrite <-Hx, <-Hy.
Qed.

Lemma sort_with_stable reverse c l :
  filter (λ a, k a = c) (sort_with k reverse l) = filter (λ a, k a = c) l.
Proof.
  unfold sort_with. rewrite filter_fmap.
  rewrite (filter_ext_Forall _ (λ p, p.1 = c)).
  - rewrite sort_decorated_stable. unfold decorate.
    rewrite (filter_fmap (λ a, (k a, a)) (λ p, p.1 = c)).
    simpl. apply (decorate_snd (filter (λ x, k x = c) l)).
  - eapply Forall_impl; [apply sort_decorated_keys|].
    intros p Hp. simpl in *. by rewrite Hp.
Qed.

(** Adequacy of the model of [list.sort]: a list in key order that keeps,
    for every key, the input's order among the elements of that key is
    unique, so every stable sorting algorithm computes [sort_with]. *)
Lemma stable_sorted_unique reverse l1 l2 :
  StronglySorted (λ a b, key_le reverse (k a) (k b) = true) l1 →
  StronglySorted (λ a b, key_le reverse (k a) (k b) = true) l2 →
  (∀ c, filter (λ a, k a = c) l1 = filter (λ a, k a = c) l2) →
  l1 = l2.
Proof.
  intros Hs1. revert l2. induction Hs1 as [|x l1 Hs1 IH Hx]; intros l2 Hs2 Hf.
  - destruct l2 as [|y l2]; [done|].
    specialize (Hf (k y)). by rewrite filter_nil, filter_cons_True in Hf.
  - destruct Hs2 as [|y l2 Hs2 Hy].
    { specialize (Hf (k x)). by rewrite filter_nil, filter_cons_True in Hf. }
    assert (key_le reverse (k x) (k y) = true) as Hxy.
    { assert (y ∈ x :: l1) as Hin.
      { eapply (proj1 (list_elem_of_filter (λ a, k a = k y) _ _)).
        rewrite Hf, filter_cons_True by done. left. }
      apply elem_of_cons in Hin as [->|Hin]; [apply key_le_refl|].
      by eapply Forall_forall in Hx. }
    assert (key_le reverse (k y) (k x) = true) as Hyx.
    { assert (x ∈ y :: l2) as Hin.
      { eapply (proj1 (list_elem_of_filter (λ a, k a = k x) _ _)).
        rewrite <-Hf, filter_cons_True by done. left. }
      apply elem_of_cons in Hin as [->|Hin]; [apply key_le_refl|].
      by eapply Forall_forall in Hy. }
    pose proof (key_le_antisym _ _ _ Hxy Hyx) as Hk.
    pose proof (Hf (k x)) as Hhead.
    rewrite filter_cons_True, (filter_cons_True _ y) in Hhead by done.
    injection Hhead as -> Htail.
    f_equal. apply IH; [done|]. intros c.
    destruct (decide (k y = c)) as [<-|Hc]; [done|].
    specialize (Hf c). by rewrite !filter_cons_False in Hf.
Qed.

Lemma sort_with_unique reverse l l' :
  StronglySorted (λ a b, key_le reverse (k a) (k b) = true) l' →
  (∀ c, filter (λ a, k a = c) l' = filter (λ a, k a = c) l) →
  l' = sort_with k reverse l.
Proof.
  intros Hs Hf. apply (stable_sorted_unique reverse); [done|apply sort_with_sorted|].
  intros c. by rewrite sort_with_stable.
Qed.

End SortWith.

(** ** Running computations *)

Ltac run_bind := unfold mbind at 1; unfold M_bind at 1.

(** Closes [Forall plain] on a list of string literals. *)
Ltac plain_labels := apply (bool_decide_unpack _); vm_compute; exact I.

Lemma bind_run {A B} (m : M A) (f : A → M B) w a w' :
  m w = (Return a, w') → (m ≫= f) w = f a w'.
Proof. intros H. unfold mbind, M_bind. by rewrite H. Qed.

Lemma bind_raise {A B} (m : M A) (f : A → M B) w e w' :
  m w = (Raise e, w') → (m ≫= f) w = (Raise e, w').
Proof. intros H. unfold mbind, M_bind. by rewrite H. Qed.

Lemma set_heap_id w l o : heap w !! l = Some o → set_heap (insert l o) w = w.
Proof.
  destruct w as [h out fs figs]. unfold set_heap. simpl. intros H.
  by rewrite insert_id.
Qed.

Lemma set_heap_overwrite w l o o' :
  set_heap (insert l o') (set_heap (insert l o) w) = set_heap (insert l o') w.
Proof. unfold set_heap. simpl. by rewrite insert_insert_eq. Qed.

Lemma fresh_heap_None (h : gmap loc obj) : h !! fresh (dom h) = None.
Proof. apply not_elem_of_dom, is_fresh. Qed.

Lemma fresh_heap_ne (h : gmap loc obj) l o : h !! l = Some o → fresh (dom h) ≠ l.
Proof. intros H Heq. by rewrite <-Heq, fresh_heap_None in H. Qed.

Lemma get_list_run w l rs : heap w !! l = Some (OList rs) → get_list l w = (Return rs, w).
Proof. intros H. unfold get_list. by rewrite H. Qed.

Lemma get_dict_run w l d : heap w !! l = Some (ODict d) → get_dict l w = (Return d, w).
Proof. intros H. unfold get_dict. by rewrite H. Qed.

Lemma list_append_run w l rs x :
  heap w !! l = Some (OList rs) →
  list_append l x w = (Return (), set_heap (insert l (OList (rs ++ [x]))) w).
Proof.
  intros H. unfold list_append. by rewrite (bind_run _ _ _ _ _ (get_list_run _ _ _ H)).
Qed.

Lemma list_sort_run w l rs key k reverse :
  heap w !! l = Some (OList rs) →
  (∀ x, x ∈ rs → key x = Return (k x)) →
  list_sort l key reverse w
  = (Return (), set_heap (insert l (OList (sort_with k reverse rs))) w).
Proof.
  intros H Hk. unfold list_sort.
  rewrite (bind_run _ _ _ _ _ (get_list_run _ _ _ H)).
  unfold mbind, M_bind, lift. by rewrite (sorted_by_total k key reverse rs Hk).
Qed.

Lemma list_slice_to_run w l rs n :
  heap w !! l = Some (OList rs) →
  list_slice_to l n w
  = (Return (fresh (dom (heap w))),
     set_heap (insert (fresh (dom (heap w))) (OList (slice_to rs n))) w).
Proof.
  intros H. unfold list_slice_to.
  by rewrite (bind_run _ _ _ _ _ (get_list_run _ _ _ H)).
Qed.

Lemma for_each_ext {A} (xs : list A) (f g : A → M unit) w :
  (∀ x w', x ∈ xs → f x w' = g x w') → for_each xs f w = for_each xs g w.
Proof.
  revert w. induction xs as [|x xs IH]; intros w Hfg; simpl; [done|].
  unfold mbind, M_bind. rewrite Hfg by left.
  destruct (g x w) as [[[]|e] w1]; [|done].
  apply IH. intros y w' Hy. apply Hfg. by right.
Qed.

Lemma for_each_select {A} l (sel : A → result (option row)) xs rs w :
  heap w !! l = Some (OList rs) →
  for_each xs (select_into l sel) w
  = ((select_rows sel xs rs).1,
     set_heap (insert l (OList (select_rows sel xs rs).2)) w).
Proof.
  revert rs w. induction xs as [|x xs IH]; intros rs w Hl; simpl.
  - by rewrite (set_heap_id _ _ _ Hl).
  - unfold mbind at 1. unfold M_bind, select_into at 1.
    unfold mbind at 1. unfold M_bind, lift at 1.
    destruct (sel x) as [[r|]|e]; simpl.
    + rewrite (list_append_run _ _ _ _ Hl).
      rewrite (IH (rs ++ [r])); [|by apply lookup_insert_eq].
      by rewrite set_heap_overwrite.
    + by apply IH.
    + by rewrite (set_heap_id _ _ _ Hl).
Qed.

Lemma select_rows_total {A} (sel : A → result (option row)) (f : A → option row)
    xs acc :
  (∀ x, x ∈ xs → sel x = Return (f x)) →
  select_rows sel xs acc = (Return (), acc ++ omap f xs).
Proof.
  revert acc. induction xs as [|x xs IH]; intros acc Hsel; simpl.
  - by rewrite app_nil_r.
  - rewrite Hsel by left.
    assert (∀ y, y ∈ xs → sel y = Return (f y)) as Hxs
      by (intros y Hy; apply Hsel; by right).
    destruct (f x) as [r|]; rewrite IH by done; [|done].
    by rewrite <-app_assoc.
Qed.

Lemma select_rows_raise {A} (sel : A → result (option row)) xs acc :
  Exists (λ x, ∃ e, sel x = Raise e) xs →
  ∃ x e, x ∈ xs ∧ sel x = Raise e ∧ (select_rows sel xs acc).1 = Raise e.
Proof.
  revert acc. induction xs as [|x xs IH]; intros acc Hex; [by inv Hex|].
  simpl. destruct (sel x) as [o|e] eqn:Hx.
  - assert (Exists (λ x, ∃ e, sel x = Raise e) xs) as Hxs.
    { apply Exists_cons in Hex as [[e He]|Hex]; [congruence|done]. }
    destruct o as [r|].
    + destruct (IH (acc ++ [r]) Hxs) as (y & e & Hy & He & Hr).
      exists y, e. split_and!; [by right|done|done].
    + destruct (IH acc Hxs) as (y & e & Hy & He & Hr).
      exists y, e. split_and!; [by right|done|done].
  - exists x, e. split_and!; [by left|done|done].
Qed.

(** ** analyze_directors *)

Lemma omap_filter_fmap {A B} (P : A → Prop) `{!∀ x, Decision (P x)} (g : A → B)
    (l : list A) :
  omap (λ x, if bool_decide (P x) then Some (g x) else None) l = g <$> filter P l.
Proof.
  induction l as [|x l IH]; [done|].
  rewrite filter_cons. csimpl. rewrite IH.
  destruct (decide (P x)) as [HP|HP].
  - by rewrite (bool_decide_eq_true_2 _ HP).
  - by rewrite (bool_decide_eq_false_2 _ HP).
Qed.

Lemma analyze_directors_run w data d n :
  heap w !! data = Some (ODict d) →
  analyze_directors data n w
  = (Return (fresh (dom (<[fresh (dom (heap w)) := OList (ranking d)]> (heap w)))),
     set_heap (λ h, heap_after_directors h d n) w).
Proof.
  intros Hd. unfold analyze_directors.
  set (l1 := fresh (dom (heap w))).
  set (w1 := set_heap (insert l1 (OList [])) w).
  assert (heap w1 !! l1 = Some (OList [])) as Hl1 by apply lookup_insert_eq.
  assert (heap w1 !! data = Some (ODict d)) as Hd1.
  { unfold w1. simpl. rewrite lookup_insert_ne; [done|]. by eapply fresh_heap_ne. }
  rewrite (bind_run _ _ w l1 w1) by done.
  unfold dict_items. rewrite (bind_run _ _ _ _ _ (get_dict_run _ _ _ Hd1)).
  run_bind.
  rewrite (for_each_ext _ _
    (select_into l1 (λ p, Return (if bool_decide (qualifies p)
                                   then Some (director_row p) else None)))).
  2:{ intros [director info] w' _. unfold select_into, mbind, M_bind, lift, qualifies.
      simpl. by destruct (bool_decide _). }
  rewrite (for_each_select _ _ _ [] _ Hl1).
  rewrite (select_rows_total _ (λ p, if bool_decide (qualifies p)
                                     then Some (director_row p) else None)) by done.
  simpl. rewrite omap_filter_fmap. fold (directors_list d).
  unfold w1. rewrite set_heap_overwrite.
  set (w2 := set_heap (insert l1 (OList (directors_list d))) w).
  assert (heap w2 !! l1 = Some (OList (directors_list d))) as Hl2
    by apply lookup_insert_eq.
  run_bind.
  rewrite (list_sort_run _ _ _ _ row_count true Hl2) by done.
  fold (ranking d). unfold w2. rewrite set_heap_overwrite.
  rewrite (list_slice_to_run _ l1 (ranking d)) by apply lookup_insert_eq.
  done.
Qed.

Lemma heap_after_directors_old h d n l o :
  h !! l = Some o → heap_after_directors h d n !! l = Some o.
Proof.
  intros H. unfold heap_after_directors.
  assert (fresh (dom h) ≠ l) as Hne1 by by eapply fresh_heap_ne.
  rewrite lookup_insert_ne.
  - by rewrite lookup_insert_ne.
  - eapply fresh_heap_ne. by rewrite lookup_insert_ne.
Qed.

Lemma heap_after_directors_result h d n :
  heap_after_directors h d n
    !! fresh (dom (<[fresh (dom h) := OList (ranking d)]> h))
  = Some (OList (slice_to (ranking d) n)).
Proof. unfold heap_after_directors. apply lookup_insert_eq. Qed.

Lemma top_directors_eq w data d n :
  heap w !! data = Some (ODict d) →
  top_directors data n w = Some (slice_to (ranking d) n).
Proof.
  intros Hd. unfold top_directors. rewrite (analyze_directors_run _ _ _ _ Hd).
  unfold view_of. simpl. by rewrite heap_after_directors_result.
Qed.

Lemma slice_to_take {A} (l : list A) n : ∃ m, slice_to l n = take m l.
Proof. unfold slice_to. case_decide; eauto. Qed.

Lemma slice_to_all {A} (l : list A) n : Z.of_nat (length l) ≤ n → slice_to l n = l.
Proof.
  intros H. unfold slice_to. rewrite decide_False by lia. apply take_ge. lia.
Qed.

Lemma slice_to_length_nonneg {A} (l : list A) n :
  0 ≤ n → Z.of_nat (length (slice_to l n)) ≤ n.
Proof.
  intros H. unfold slice_to. rewrite decide_False by lia.
  rewrite length_take. lia.
Qed.

Lemma StronglySorted_mono {A} (R1 R2 : relation A) (l : list A) :
  (∀ x y, R1 x y → R2 x y) → StronglySorted R1 l → StronglySorted R2 l.
Proof.
  intros HR. induction 1 as [|x l Hl IH Hx]; constructor; [done|].
  eapply Forall_impl; [exact Hx|]. auto.
Qed.

Lemma StronglySorted_take {A} (R : relation A) (l : list A) m :
  StronglySorted R l → StronglySorted R (take m l).
Proof.
  intros H. rewrite <-(take_drop m l) in H. by apply StronglySorted_app_1_l in H.
Qed.

Lemma ranking_perm d : ranking d ≡ₚ director_row <$> filter qualifies d.
Proof. apply sort_with_perm. Qed.

Lemma ranking_sorted d :
  StronglySorted (λ a b, row_count b ≤ row_count a) (ranking d).
Proof.
  eapply StronglySorted_mono; [|apply sort_with_sorted].
  intros x y H. simpl in H. by apply bool_decide_eq_true in H.
Qed.

Lemma ranking_qualify d :
  Forall (λ r, ∃ p, p ∈ d ∧ count_in_top1000 p.2 > 0 ∧ r = director_row p) (ranking d).
Proof.
  rewrite ranking_perm. apply Forall_fmap, Forall_forall.
  intros p [Hq Hp]%list_elem_of_filter. by exists p.
Qed.

Lemma ranking_stable d c :
  filter (λ r, row_count r = c) (ranking d)
  = filter (λ r, row_count r = c) (directors_list d).
Proof. apply sort_with_stable. Qed.

(** ** analyze_decades *)

Lemma int_valid label z : py_int label = Some z → int label = Return (decade_value label).
Proof. intros H. unfold int, decade_value. by rewrite H. Qed.

Lemma decade_sel_valid p :
  valid_label p.1 →
  decade_sel p = Return (if bool_decide (keeps p) then Some (decade_row p) else None).
Proof.
  intros Hv. unfold decade_sel, keeps.
  destruct (decide (p.1 = "unknown")) as [Hu|Hu].
  - rewrite bool_decide_eq_false_2 by (intros ?; done).
    rewrite bool_decide_eq_false_2 by (intros [? _]; done). done.
  - rewrite bool_decide_eq_true_2 by done.
    destruct Hv as [?|[z Hz]]; [done|].
    rewrite (int_valid _ _ Hz). f_equal.
    destruct (decide (decade_value p.1 > 0)) as [Hpos|Hpos].
    + by rewrite !bool_decide_eq_true_2.
    + rewrite !bool_decide_eq_false_2; [done| |done]. by intros [_ ?].
Qed.

Lemma decade_sel_invalid p :
  ¬ valid_label p.1 → decade_sel p = Raise (ValueError p.1).
Proof.
  intros Hv. unfold decade_sel, int.
  rewrite bool_decide_eq_true_2 by (intros ?; apply Hv; by left).
  destruct (py_int p.1) as [z|] eqn:Hz; [|done].
  destruct Hv. right. by exists z.
Qed.

Lemma decade_sel_raise p e :
  decade_sel p = Raise e → ¬ valid_label p.1 ∧ e = ValueError p.1.
Proof.
  intros H. destruct (decide (valid_label p.1)) as [Hv|Hv].
  - by rewrite decade_sel_valid in H.
  - rewrite decade_sel_invalid in H by done. split; congruence.
Qed.

Lemma decade_key_list info x :
  Forall (λ p, valid_label p.1) (decades info) →
  x ∈ decades_list info → decade_key x = Return (decade_num x).
Proof.
  intros Hv (p & -> & [[Hu Hpos] Hp]%list_elem_of_filter)%list_elem_of_fmap.
  eapply Forall_forall in Hv; [|exact Hp].
  destruct Hv as [?|[z Hz]]; [done|].
  unfold decade_key. simpl. by eapply int_valid.
Qed.

Lemma dict_in_run w data d k :
  heap w !! data = Some (ODict d) →
  dict_in data k w = (Return (dict_contains d k), w).
Proof.
  intros H. unfold dict_in. by rewrite (bind_run _ _ _ _ _ (get_dict_run _ _ _ H)).
Qed.

Lemma dict_getitem_run w data d k v :
  heap w !! data = Some (ODict d) → dict_get d k = Some v →
  dict_getitem data k w = (Return v, w).
Proof.
  intros H Hk. unfold dict_getitem.
  rewrite (bind_run _ _ _ _ _ (get_dict_run _ _ _ H)). by rewrite Hk.
Qed.

Lemma analyze_decades_absent w data d name :
  heap w !! data = Some (ODict d) → dict_get d name = None →
  analyze_decades data name w
  = (Return None,
     mkWorld (heap w) (stdout w ++ [not_found_message name]) (files w) (figures w)).
Proof.
  intros Hd Hn. unfold analyze_decades, analyze_decades_with.
  rewrite (bind_run _ _ _ _ _ (dict_in_run _ _ _ name Hd)).
  unfold dict_contains. rewrite Hn.
  rewrite bool_decide_eq_false_2 by (by intros [? ?]). done.
Qed.

Lemma analyze_decades_loop w data d name info :
  heap w !! data = Some (ODict d) → dict_get d name = Some info →
  analyze_decades data name w
  = (let l := fresh (dom (heap w)) in
     let w1 := set_heap (insert l (OList [])) w in
     (for_each (decades info) (select_into l decade_sel);;
      list_sort l decade_key false;;
      mret (Some l)) w1).
Proof.
  intros Hd Hn. unfold analyze_decades, analyze_decades_with.
  rewrite (bind_run _ _ _ _ _ (dict_in_run _ _ _ name Hd)).
  unfold dict_contains. rewrite Hn.
  rewrite bool_decide_eq_true_2 by eauto. change (negb true) with false. cbv iota.
  rewrite (bind_run _ _ _ _ _ (dict_getitem_run _ _ _ _ _ Hd Hn)).
  set (l := fresh (dom (heap w))).
  set (w1 := set_heap (insert l (OList [])) w).
  rewrite (bind_run _ _ w l w1) by done.
  cbv zeta. unfold mbind at 1 3. unfold M_bind at 1 3.
  rewrite (for_each_ext _ _ (select_into l decade_sel)); [done|].
  intros [decade stat] w' _.
  unfold select_into, decade_sel, mbind, M_bind, lift, mret, M_ret. simpl.
  destruct (bool_decide (decade ≠ "unknown")); [|done].
  destruct (int decade) as [z|e]; [|done].
  by destruct (bool_decide (z > 0)).
Qed.

Lemma analyze_decades_run w data d name info :
  heap w !! data = Some (ODict d) → dict_get d name = Some info →
  Forall (λ p, valid_label p.1) (decades info) →
  analyze_decades data name w
  = (Return (Some (fresh (dom (heap w)))),
     set_heap (insert (fresh (dom (heap w))) (OList (decades_sorted info))) w).
Proof.
  intros Hd Hn Hv. rewrite (analyze_decades_loop _ _ _ _ _ Hd Hn). cbv zeta.
  set (l := fresh (dom (heap w))).
  set (w1 := set_heap (insert l (OList [])) w).
  assert (heap w1 !! l = Some (OList [])) as Hl by apply lookup_insert_eq.
  run_bind.
  rewrite (for_each_select _ _ _ [] _ Hl).
  rewrite (select_rows_total _
    (λ p, if bool_decide (keeps p) then Some (decade_row p) else None)).
  2:{ intros p Hp. apply decade_sel_valid. by eapply Forall_forall in Hv. }
  simpl. rewrite omap_filter_fmap. fold (decades_list info).
  unfold w1. rewrite set_heap_overwrite.
  run_bind.
  rewrite (list_sort_run _ l (decades_list info) _ decade_num false).
  - by rewrite set_heap_overwrite.
  - apply lookup_insert_eq.
  - intros x Hx. by apply (decade_key_list info).
Qed.

Lemma analyze_decades_raise w data d name info :
  heap w !! data = Some (ODict d) → dict_get d name = Some info →
  Exists (λ p, ¬ valid_label p.1) (decades info) →
  ∃ p w', p ∈ decades info ∧ ¬ valid_label p.1 ∧
    analyze_decades data name w = (Raise (ValueError p.1), w') ∧
    stdout w' = stdout w.
Proof.
  intros Hd Hn Hex. rewrite (analyze_decades_loop _ _ _ _ _ Hd Hn). cbv zeta.
  set (l := fresh (dom (heap w))).
  set (w1 := set_heap (insert l (OList [])) w).
  assert (heap w1 !! l = Some (OList [])) as Hl by apply lookup_insert_eq.
  destruct (select_rows_raise decade_sel (decades info) []) as (p & e & Hp & He & Hr).
  { eapply Exists_impl; [exact Hex|]. intros p Hp. simpl in Hp.
    exists (ValueError p.1). by apply decade_sel_invalid. }
  apply decade_sel_raise in He as [Hinv ->].
  eexists p, _. split_and!; [done|done| |].
  - run_bind.
    rewrite (for_each_select _ _ _ [] _ Hl), Hr. done.
  - done.
Qed.

(** ** Framing *)

Section Frames.
Context (h0 : gmap loc obj).

Lemma frames_weaken {A} (m : M A) (Q R : A → Prop) :
  (∀ a, Q a → R a) → frames h0 m Q → frames h0 m R.
Proof. intros HQR Hm w Hw. destruct (Hm w Hw) as [? ?]. split; auto. Qed.

Lemma frames_ret {A} (a : A) : frames h0 (mret a) (λ b, b = a).
Proof. intros w Hw. split; [done|]. simpl. by intros b [= <-]. Qed.

Lemma frames_ret_any {A} (a : A) : frames h0 (mret a) any.
Proof. eapply frames_weaken; [|apply frames_ret]. done. Qed.

Lemma frames_pure {A} (r : result A) : frames h0 (lift r) any.
Proof. intros w Hw. by split. Qed.

Lemma frames_raise {A} (e : exn) : frames h0 (raise e : M A) any.
Proof. intros w Hw. by split. Qed.

Lemma frames_bind {A B} (m : M A) (f : A → M B) (Q : A → Prop) (R : B → Prop) :
  frames h0 m Q → (∀ a, Q a → frames h0 (f a) R) → frames h0 (m ≫= f) R.
Proof.
  intros Hm Hf w Hw. destruct (Hm w Hw) as [Hsub HQ].
  unfold mbind, M_bind. destruct (m w) as [[a|e] w1]; simpl in *.
  - apply Hf; auto.
  - split; [done|]. by intros.
Qed.

Lemma frames_print s : frames h0 (print s) any.
Proof. intros w Hw. by split. Qed.

Lemma frames_alloc o : frames h0 (alloc o) (λ l, h0 !! l = None).
Proof.
  intros w Hw. simpl.
  assert (h0 !! fresh (dom (heap w)) = None) as Hfresh
    by (eapply lookup_weaken_None; [apply fresh_heap_None|done]).
  split.
  - by apply insert_subseteq_r.
  - by intros l [= <-].
Qed.

Lemma frames_store l o : h0 !! l = None → frames h0 (store l o) any.
Proof. intros Hl w Hw. split; [|done]. simpl. by apply insert_subseteq_r. Qed.

Lemma frames_get_list l : frames h0 (get_list l) any.
Proof.
  intros w Hw. unfold get_list. destruct (heap w !! l) as [[|]|]; by split.
Qed.

Lemma frames_get_dict l : frames h0 (get_dict l) any.
Proof.
  intros w Hw. unfold get_dict. destruct (heap w !! l) as [[|]|]; by split.
Qed.

Lemma frames_list_append l x : h0 !! l = None → frames h0 (list_append l x) any.
Proof.
  intros Hl. eapply frames_bind; [apply frames_get_list|].
  intros rs _. by apply frames_store.
Qed.

Lemma frames_list_sort l key reverse :
  h0 !! l = None → frames h0 (list_sort l key reverse) any.
Proof.
  intros Hl. eapply frames_bind; [apply frames_get_list|]. intros rs _.
  eapply frames_bind; [apply frames_pure|]. intros rs' _.
  by apply frames_store.
Qed.

Lemma frames_list_slice_to l n : frames h0 (list_slice_to l n) any.
Proof.
  eapply frames_bind; [apply frames_get_list|]. intros rs _.
  eapply frames_weaken; [|apply frames_alloc]. done.
Qed.

Lemma frames_for_each {A} (xs : list A) (body : A → M unit) :
  (∀ x, frames h0 (body x) any) → frames h0 (for_each xs body) any.
Proof.
  intros Hbody. induction xs as [|x xs IH]; simpl.
  - apply frames_ret_any.
  - eapply frames_bind; [apply Hbody|]. by intros.
Qed.

Lemma frames_analyze_directors data n : frames h0 (analyze_directors data n) any.
Proof.
  unfold analyze_directors.
  eapply frames_bind; [apply frames_alloc|]. intros l Hl. simpl in Hl.
  eapply frames_bind; [apply frames_get_dict|]. intros items _.
  eapply frames_bind.
  { apply frames_for_each. intros [director info].
    destruct (bool_decide _).
    - by apply frames_list_append.
    - apply frames_ret_any. }
  intros _ _. eapply frames_bind; [by apply frames_list_sort|].
  intros _ _. apply frames_list_slice_to.
Qed.

Lemma frames_analyze_decades data name : frames h0 (analyze_decades data name) any.
Proof.
  unfold analyze_decades, analyze_decades_with.
  eapply frames_bind with (Q := any).
  { unfold dict_in. eapply frames_bind; [apply frames_get_dict|].
    intros d _. apply frames_ret_any. }
  intros present _. destruct present; simpl.
  - eapply frames_bind with (Q := any).
    { unfold dict_getitem. eapply frames_bind; [apply frames_get_dict|].
      intros d _. destruct (dict_get d name).
      - apply frames_ret_any.
      - apply frames_raise. }
    intros info _.
    eapply frames_bind; [apply frames_alloc|]. intros l Hl. simpl in Hl.
    eapply frames_bind.
    { apply frames_for_each. intros [decade stat].
      eapply frames_bind with (Q := any).
      - destruct (bool_decide _).
        + eapply frames_bind; [apply frames_pure|]. intros z _.
          apply frames_ret_any.
        + apply frames_ret_any.
      - intros keep _. destruct keep.
        + by apply frames_list_append.
        + apply frames_ret_any. }
    intros _ _. eapply frames_bind; [by apply frames_list_sort|].
    intros _ _. apply frames_ret_any.
  - eapply frames_bind; [apply frames_print|]. intros _ _.
    apply frames_ret_any.
Qed.

End Frames.

(** ** Claims about analyze_directors *)

Lemma sublist_filter_mono {A} (P : A → Prop) `{!∀ x, Decision (P x)} (l1 l2 : list A) :
  l1 `sublist_of` l2 → filter P l1 `sublist_of` filter P l2.
Proof.
  induction 1 as [|x l1 l2 Hl IH|x l1 l2 Hl IH]; [done| |].
  - rewrite !filter_cons. case_decide; [by constructor|done].
  - rewrite filter_cons. case_decide; [by constructor|done].
Qed.

(** C1 (amended to a non-negative [n]): the call returns a list of at most
    [n] entries; every entry is the row of a director of the dataset whose
    [count_in_top1000] is positive; the entries are in non-increasing order
    of count; and when at most [n] directors qualify the result holds exactly
    the rows of all of them. *)
Theorem top_directors_bounded w data d n :
  heap w !! data = Some (ODict d) → 0 ≤ n →
  ∃ res, top_directors data n w = Some res
    ∧ Z.of_nat (length res) ≤ n
    ∧ Forall (λ r, row_count r > 0 ∧ ∃ p, p ∈ d ∧ qualifies p ∧ r = director_row p) res
    ∧ StronglySorted (λ a b, row_count b ≤ row_count a) res
    ∧ (Z.of_nat (length (filter qualifies d)) ≤ n →
       res ≡ₚ director_row <$> filter qualifies d).
Proof.
  intros Hd Hn. exists (slice_to (ranking d) n).
  split; [by apply top_directors_eq|].
  split; [by apply slice_to_length_nonneg|].
  destruct (slice_to_take (ranking d) n) as [m Hm].
  split_and!.
  - rewrite Hm. apply Forall_take.
    eapply Forall_impl; [apply ranking_qualify|].
    intros r (p & Hp & Hq & ->). split; [exact Hq|]. by exists p.
  - rewrite Hm. apply StronglySorted_take, ranking_sorted.
  - intros Hlen. rewrite slice_to_all; [apply ranking_perm|].
    by rewrite ranking_perm, length_fmap.
Qed.

Lemma top_directors_bounded_witness :
  ∃ res, top_directors 1%positive 2 (world_with tie_data) = Some res
    ∧ Z.of_nat (length res) ≤ 2
    ∧ Forall (λ r, row_count r > 0
                   ∧ ∃ p, p ∈ tie_data ∧ qualifies p ∧ r = director_row p) res
    ∧ StronglySorted (λ a b, row_count b ≤ row_count a) res
    ∧ (Z.of_nat (length (filter qualifies tie_data)) ≤ 2 →
       res ≡ₚ director_row <$> filter qualifies tie_data).
Proof.
  apply (top_directors_bounded (world_with tie_data) 1%positive tie_data 2);
    [reflexivity | lia].
Defined.

(** C1 as stated, for every [n], fails at [n = -1]: with three qualifying
    directors the call returns two entries, which is more than [n]. *)
Lemma top_directors_exceeds_negative :
  top_directors 1%positive (-1) (world_with tie_data)
  = Some [DirectorRow "Y" 5 (NFloat 8.1); DirectorRow "X" 3 (NFloat 7.5)]
  ∧ ¬ (∀ res, top_directors 1%positive (-1) (world_with tie_data) = Some res →
         Z.of_nat (length res) ≤ -1).
Proof.
  assert (top_directors 1%positive (-1) (world_with tie_data)
          = Some [DirectorRow "Y" 5 (NFloat 8.1); DirectorRow "X" 3 (NFloat 7.5)])
    as Hrun by (vm_compute; reflexivity).
  split; [exact Hrun|].
  intros H. specialize (H _ Hrun). simpl in H. lia.
Qed.

(** C10: for a negative [n] the call returns the ranked list of all
    qualifying directors with its last [|n|] entries dropped (all of them
    when there are fewer), and the result has more than [n] entries. *)
Theorem top_directors_negative w data d n :
  heap w !! data = Some (ODict d) → n < 0 →
  ∃ full res dropped,
    top_directors data (Z.of_nat (length d)) w = Some full
    ∧ full ≡ₚ director_row <$> filter qualifies d
    ∧ StronglySorted (λ a b, row_count b ≤ row_count a) full
    ∧ top_directors data n w = Some res
    ∧ full = res ++ dropped
    ∧ length dropped = Nat.min (Z.to_nat (- n)) (length full)
    ∧ n < Z.of_nat (length res).
Proof.
  intros Hd Hn.
  set (m := Z.to_nat (Z.of_nat (length (ranking d)) + n)).
  exists (ranking d), (take m (ranking d)), (drop m (ranking d)).
  split_and!.
  - rewrite (top_directors_eq _ _ _ _ Hd). f_equal. apply slice_to_all.
    rewrite ranking_perm, length_fmap.
    pose proof (length_filter qualifies d) as Hlen. apply Nat2Z.inj_le. exact Hlen.
  - apply ranking_perm.
  - apply ranking_sorted.
  - rewrite (top_directors_eq _ _ _ _ Hd). unfold slice_to.
    by rewrite decide_True by done.
  - by rewrite take_drop.
  - rewrite length_drop. unfold m. lia.
  - lia.
Qed.

Lemma top_directors_negative_witness :
  ∃ full res dropped,
    top_directors 1%positive (Z.of_nat (length tie_data)) (world_with tie_data)
    = Some full
    ∧ full ≡ₚ director_row <$> filter qualifies tie_data
    ∧ StronglySorted (λ a b, row_count b ≤ row_count a) full
    ∧ top_directors 1%positive (-2) (world_with tie_data) = Some res
    ∧ full = res ++ dropped
    ∧ length dropped = Nat.min (Z.to_nat (- -2)) (length full)
    ∧ -2 < Z.of_nat (length res).
Proof.
  apply (top_directors_negative (world_with tie_data) 1%positive tie_data (-2));
    [reflexivity | lia].
Defined.

(** C5: two entries of equal count that the call returns in the order
    [a], [b] are the rows of two directors that the dataset iterates in that
    same order. *)
Theorem top_directors_stable w data d n res a b :
  heap w !! data = Some (ODict d) →
  top_directors data n w = Some res →
  row_count a = row_count b →
  [a; b] `sublist_of` res →
  [a; b] `sublist_of` director_row <$> d.
Proof.
  intros Hd Hres Hab Hsub.
  rewrite (top_directors_eq _ _ _ _ Hd) in Hres. injection Hres as <-.
  destruct (slice_to_take (ranking d) n) as [m Hm]. rewrite Hm in Hsub.
  assert ([a; b] `sublist_of` ranking d) as Hrank
    by (etrans; [exact Hsub|apply sublist_take]).
  apply (sublist_filter_mono (λ r, row_count r = row_count b)) in Hrank.
  rewrite ranking_stable in Hrank.
  rewrite filter_cons_True, filter_cons_True, filter_nil in Hrank by done.
  etrans; [exact Hrank|].
  etrans; [apply sublist_filter|].
  unfold directors_list. apply fmap_sublist, sublist_filter.
Qed.

Lemma top_directors_stable_witness :
  [DirectorRow "X" 3 (NFloat 7.5); DirectorRow "Z" 3 (NFloat 7.9)]
    `sublist_of` director_row <$> tie_data.
Proof.
  apply (top_directors_stable (world_with tie_data) 1%positive tie_data 15
           [DirectorRow "Y" 5 (NFloat 8.1); DirectorRow "X" 3 (NFloat 7.5);
            DirectorRow "Z" 3 (NFloat 7.9)]);
    [reflexivity | vm_compute; reflexivity | reflexivity |].
  apply sublist_cons, sublist_skip, sublist_skip, sublist_nil.
Defined.

(** C6: two calls in a row on the same dataset and the same [n] return two
    distinct lists with identical contents, and any call in any world that
    holds the same dataset returns those contents too. *)
Theorem top_directors_twice w data d n :
  heap w !! data = Some (ODict d) →
  ∃ r1 w1 r2 w2 res,
    analyze_directors data n w = (Return r1, w1)
    ∧ analyze_directors data n w1 = (Return r2, w2)
    ∧ r1 ≠ r2
    ∧ heap w2 !! r1 = Some (OList res)
    ∧ heap w2 !! r2 = Some (OList res)
    ∧ ∀ w', heap w' !! data = Some (ODict d) → top_directors data n w' = Some res.
Proof.
  intros Hd.
  pose proof (analyze_directors_run w data d n Hd) as Hrun1.
  set (r1 := fresh (dom (<[fresh (dom (heap w)) := OList (ranking d)]> (heap w))))
    in Hrun1.
  set (w1 := set_heap (λ h, heap_after_directors h d n) w) in Hrun1.
  assert (heap w1 !! data = Some (ODict d)) as Hd1
    by (by apply heap_after_directors_old).
  assert (heap w1 !! r1 = Some (OList (slice_to (ranking d) n))) as Hr1
    by apply heap_after_directors_result.
  pose proof (analyze_directors_run w1 data d n Hd1) as Hrun2.
  set (r2 := fresh (dom (<[fresh (dom (heap w1)) := OList (ranking d)]> (heap w1))))
    in Hrun2.
  exists r1, w1, r2, (set_heap (λ h, heap_after_directors h d n) w1),
    (slice_to (ranking d) n).
  split_and!; [exact Hrun1|exact Hrun2| | | |].
  - intros Heq. symmetry in Heq. revert Heq. eapply fresh_heap_ne.
    rewrite lookup_insert_ne; [exact Hr1|]. by eapply fresh_heap_ne.
  - by apply heap_after_directors_old.
  - apply heap_after_directors_result.
  - intros w' Hd'. by apply top_directors_eq.
Qed.

Lemma top_directors_twice_witness :
  ∃ r1 w1 r2 w2 res,
    analyze_directors 1%positive 2 (world_with tie_data) = (Return r1, w1)
    ∧ analyze_directors 1%positive 2 w1 = (Return r2, w2)
    ∧ r1 ≠ r2
    ∧ heap w2 !! r1 = Some (OList res)
    ∧ heap w2 !! r2 = Some (OList res)
    ∧ ∀ w', heap w' !! 1%positive = Some (ODict tie_data) →
            top_directors 1%positive 2 w' = Some res.
Proof.
  apply (top_directors_twice (world_with tie_data) 1%positive tie_data 2).
  reflexivity.
Defined.

(** C8: whatever the arguments, and whether the call returns or raises,
    every object that was in the heap before a call of either analyzer, the
    dataset among them, is the same after it. *)
Theorem analyzers_preserve_heap w data n name l o :
  heap w !! l = Some o →
  heap (analyze_directors data n w).2 !! l = Some o
  ∧ heap (analyze_decades data name w).2 !! l = Some o.
Proof.
  intros Hl. split.
  - destruct (frames_analyze_directors (heap w) data n w) as [Hsub _]; [done|].
    by eapply lookup_weaken.
  - destruct (frames_analyze_decades (heap w) data name w) as [Hsub _]; [done|].
    by eapply lookup_weaken.
Qed.

Lemma analyzers_preserve_heap_witness :
  heap (analyze_directors 1%positive 1 (world_with example_data)).2 !! 1%positive
  = Some (ODict example_data)
  ∧ heap (analyze_decades 1%positive "A" (world_with example_data)).2 !! 1%positive
    = Some (ODict example_data).
Proof.
  apply (analyzers_preserve_heap (world_with example_data) 1%positive 1 "A"
           1%positive (ODict example_data)).
  reflexivity.
Defined.

(** ** Claims about analyze_decades *)

Lemma decades_for_eq w data d name info :
  heap w !! data = Some (ODict d) → dict_get d name = Some info →
  Forall (λ p, valid_label p.1) (decades info) →
  decades_for data name w = Some (decades_sorted info).
Proof.
  intros Hd Hn Hv. unfold decades_for.
  rewrite (analyze_decades_run _ _ _ _ _ Hd Hn Hv).
  unfold view_of. simpl. by rewrite lookup_insert_eq.
Qed.

Lemma decades_for_Some w data d name res :
  heap w !! data = Some (ODict d) → decades_for data name w = Some res →
  ∃ info, dict_get d name = Some info ∧ res = decades_sorted info.
Proof.
  intros Hd Hres. destruct (dict_get d name) as [info|] eqn:Hn.
  - exists info. split; [done|].
    destruct (decide (Forall (λ p, valid_label p.1) (decades info))) as [Hv|Hv].
    + rewrite (decades_for_eq _ _ _ _ _ Hd Hn Hv) in Hres. congruence.
    + apply not_Forall_Exists in Hv; [|apply _].
      destruct (analyze_decades_raise _ _ _ _ _ Hd Hn Hv) as (p & w' & _ & _ & Hr & _).
      unfold decades_for in Hres. by rewrite Hr in Hres.
  - unfold decades_for in Hres.
    by rewrite (analyze_decades_absent _ _ _ _ Hd Hn) in Hres.
Qed.

Lemma decades_sorted_perm info :
  decades_sorted info ≡ₚ decade_row <$> filter keeps (decades info).
Proof. apply sort_with_perm. Qed.

Lemma decades_sorted_ascending info :
  StronglySorted (λ a b, decade_num a ≤ decade_num b) (decades_sorted info).
Proof.
  eapply StronglySorted_mono; [|apply sort_with_sorted].
  intros x y H. simpl in H. by apply bool_decide_eq_true in H.
Qed.

Lemma StronglySorted_strict {A} (f : A → Z) (l : list A) :
  StronglySorted (λ a b, f a ≤ f b) l → NoDup (f <$> l) →
  StronglySorted (λ a b, f a < f b) l.
Proof.
  induction 1 as [|x l Hl IH Hx]; intros Hnd; [constructor|].
  rewrite fmap_cons in Hnd. apply NoDup_cons in Hnd as [Hnotin Hnd].
  constructor; [by apply IH|].
  apply Forall_forall. intros y Hy.
  assert (f x ≤ f y) by (by eapply Forall_forall in Hx).
  assert (f x ≠ f y); [|lia].
  intros Heq. apply Hnotin. rewrite Heq. by apply list_elem_of_fmap_2.
Qed.

Lemma decades_sorted_NoDup info :
  dict_wf (decades info) →
  (∀ p q, p ∈ decades info → q ∈ decades info → keeps p → keeps q →
          decade_value p.1 = decade_value q.1 → p.1 = q.1) →
  NoDup (decade_num <$> decades_sorted info).
Proof.
  intros Hwf Hinj. rewrite decades_sorted_perm, <-list_fmap_compose.
  assert (NoDup (filter keeps (decades info)).*1) as Hnd.
  { eapply sublist_NoDup; [exact Hwf|apply fmap_sublist, sublist_filter]. }
  assert (∀ p q, p ∈ filter keeps (decades info) → q ∈ filter keeps (decades info) →
            p.1 = q.1 → p = q) as Hfst.
  { clear Hinj. induction (filter keeps (decades info)) as [|x l IH]; intros p q Hp Hq Hpq.
    - by apply elem_of_nil in Hp.
    - rewrite fmap_cons in Hnd. apply NoDup_cons in Hnd as [Hx Hl].
      apply elem_of_cons in Hp as [->|Hp]; apply elem_of_cons in Hq as [->|Hq].
      + done.
      + destruct Hx. rewrite Hpq. by apply list_elem_of_fmap_2.
      + destruct Hx. rewrite <-Hpq. by apply list_elem_of_fmap_2.
      + by apply IH. }
  apply NoDup_fmap_2_strong.
  - intros p q Hp Hq Heq. simpl in Heq. apply Hfst; [done|done|].
    apply list_elem_of_filter in Hp as [Hkp Hp].
    apply list_elem_of_filter in Hq as [Hkq Hq].
    by apply Hinj.
  - by eapply NoDup_fmap_1.
Qed.

(** C2 (amended to a non-strict order): when the call returns a list, the
    director is in the dataset, every entry is the row of one of the
    director's decades whose label is not ["unknown"] and reads as a
    positive integer, with [avg_rating] defaulting to the integer 0, and the
    entries are in non-decreasing order of the label's integer; the order is
    strict when no two kept labels of the director read as the same
    integer. *)
Theorem decades_for_sorted w data d name res :
  heap w !! data = Some (ODict d) →
  decades_for data name w = Some res →
  ∃ info, dict_get d name = Some info
    ∧ Forall (λ r, ∃ label stat z,
                (label, stat) ∈ decades info
                ∧ label ≠ "unknown" ∧ py_int label = Some z ∧ z > 0
                ∧ r = DecadeRow label (ds_count stat)
                        (default (NInt 0) (ds_avg_rating stat))) res
    ∧ StronglySorted (λ a b, decade_num a ≤ decade_num b) res
    ∧ (dict_wf (decades info) →
       (∀ p q, p ∈ decades info → q ∈ decades info → keeps p → keeps q →
               decade_value p.1 = decade_value q.1 → p.1 = q.1) →
       StronglySorted (λ a b, decade_num a < decade_num b) res).
Proof.
  intros Hd Hres.
  destruct (decades_for_Some _ _ _ _ _ Hd Hres) as (info & Hn & ->).
  exists info. split_and!; [done| | |].
  - rewrite decades_sorted_perm. apply Forall_fmap, Forall_forall.
    intros [label stat] [[Hu Hpos] Hp]%list_elem_of_filter. simpl in *.
    unfold decade_value in Hpos.
    destruct (py_int label) as [z|] eqn:Hz; simpl in Hpos; [|lia].
    exists label, stat, z. by split_and!.
  - apply decades_sorted_ascending.
  - intros Hwf Hinj. apply StronglySorted_strict.
    + apply decades_sorted_ascending.
    + by apply decades_sorted_NoDup.
Qed.

Lemma decades_for_sorted_witness :
  ∃ info, dict_get example_data "A" = Some info
    ∧ Forall (λ r, ∃ label stat z,
                (label, stat) ∈ decades info
                ∧ label ≠ "unknown" ∧ py_int label = Some z ∧ z > 0
                ∧ r = DecadeRow label (ds_count stat)
                        (default (NInt 0) (ds_avg_rating stat)))
        [DecadeRow "1990" 3 (NFloat 8.0); DecadeRow "2000" 2 (NFloat 8.5)]
    ∧ StronglySorted (λ a b, decade_num a ≤ decade_num b)
        [DecadeRow "1990" 3 (NFloat 8.0); DecadeRow "2000" 2 (NFloat 8.5)]
    ∧ (dict_wf (decades info) →
       (∀ p q, p ∈ decades info → q ∈ decades info → keeps p → keeps q →
               decade_value p.1 = decade_value q.1 → p.1 = q.1) →
       StronglySorted (λ a b, decade_num a < decade_num b)
         [DecadeRow "1990" 3 (NFloat 8.0); DecadeRow "2000" 2 (NFloat 8.5)]).
Proof.
  apply (decades_for_sorted (world_with example_data) 1%positive example_data "A");
    [reflexivity | vm_compute; reflexivity].
Defined.

(** C2 as stated fails on the strict order: the labels ["1990"] and
    ["01990"] are distinct keys, both are kept, and both read as 1990. *)
Lemma decades_for_not_strict :
  dict_wf same_decade_data
  ∧ (∀ info, dict_get same_decade_data "A" = Some info → dict_wf (decades info))
  ∧ decades_for 1%positive "A" (world_with same_decade_data)
    = Some [DecadeRow "1990" 1 (NFloat 8.0); DecadeRow "01990" 1 (NInt 0)]
  ∧ ¬ StronglySorted (λ a b, decade_num a < decade_num b)
        [DecadeRow "1990" 1 (NFloat 8.0); DecadeRow "01990" 1 (NInt 0)].
Proof.
  split_and!.
  - unfold dict_wf. simpl. apply NoDup_singleton.
  - intros info [= <-]. unfold dict_wf. simpl.
    apply NoDup_cons. split; [|apply NoDup_singleton].
    intros H%list_elem_of_singleton. discriminate H.
  - vm_compute. reflexivity.
  - intros H. apply StronglySorted_inv in H as [_ H].
    apply Forall_cons in H as [H _]. vm_compute in H. discriminate H.
Qed.

(** C7: the worked example of the specification, in any world that holds
    the example dataset. *)
Theorem spec_example w data :
  heap w !! data = Some (ODict example_data) →
  top_directors data 1 w = Some [DirectorRow "A" 5 (NFloat 8.2)]
  ∧ decades_for data "A" w
    = Some [DecadeRow "1990" 3 (NFloat 8.0); DecadeRow "2000" 2 (NFloat 8.5)].
Proof.
  intros Hd. split.
  - rewrite (top_directors_eq _ _ _ _ Hd). vm_compute. reflexivity.
  - rewrite (decades_for_eq w data example_data "A"
               (mkDirectorRecord 5 (NFloat 8.2)
                  [("1990", mkDecadeStat 3 (Some (NFloat 8.0)));
                   ("2000", mkDecadeStat 2 (Some (NFloat 8.5)));
                   ("unknown", mkDecadeStat 1 None)]) Hd eq_refl).
    + vm_compute. reflexivity.
    + repeat apply Forall_cons_2; [right; by eexists ..|by left|apply Forall_nil_2].
Qed.

Lemma spec_example_witness :
  top_directors 1%positive 1 (world_with example_data)
  = Some [DirectorRow "A" 5 (NFloat 8.2)]
  ∧ decades_for 1%positive "A" (world_with example_data)
    = Some [DecadeRow "1990" 3 (NFloat 8.0); DecadeRow "2000" 2 (NFloat 8.5)].
Proof.
  apply (spec_example (world_with example_data) 1%positive). reflexivity.
Defined.

Section AnyInt.
Variable int_ : string → result Z.

Lemma analyze_decades_with_absent w data d name :
  heap w !! data = Some (ODict d) → dict_get d name = None →
  analyze_decades_with int_ data name w
  = (Return None, with_stdout w [not_found_message name]).
Proof.
  intros Hd Hn. unfold analyze_decades_with.
  rewrite (bind_run _ _ _ _ _ (dict_in_run _ _ _ name Hd)).
  unfold dict_contains. rewrite Hn.
  rewrite bool_decide_eq_false_2 by (by intros [? ?]). done.
Qed.

Lemma analyze_decades_with_loop w data d name info :
  heap w !! data = Some (ODict d) → dict_get d name = Some info →
  analyze_decades_with int_ data name w
  = (let l := fresh (dom (heap w)) in
     let w1 := set_heap (insert l (OList [])) w in
     (for_each (decades info) (select_into l (decade_sel_with int_));;
      list_sort l (decade_key_with int_) false;;
      mret (Some l)) w1).
Proof.
  intros Hd Hn. unfold analyze_decades_with.
  rewrite (bind_run _ _ _ _ _ (dict_in_run _ _ _ name Hd)).
  unfold dict_contains. rewrite Hn.
  rewrite bool_decide_eq_true_2 by eauto. change (negb true) with false. cbv iota.
  rewrite (bind_run _ _ _ _ _ (dict_getitem_run _ _ _ _ _ Hd Hn)).
  set (l := fresh (dom (heap w))).
  set (w1 := set_heap (insert l (OList [])) w).
  rewrite (bind_run _ _ w l w1) by done.
  cbv zeta. unfold mbind at 1 3. unfold M_bind at 1 3.
  rewrite (for_each_ext _ _ (select_into l (decade_sel_with int_))); [done|].
  intros [decade stat] w' _.
  unfold select_into, decade_sel_with, mbind, M_bind, lift, mret, M_ret. simpl.
  destruct (bool_decide (decade ≠ "unknown")); [|done].
  destruct (int_ decade) as [z|e]; [|done].
  by destruct (bool_decide (z > 0)).
Qed.

Lemma decade_sel_with_parses p :
  p.1 = "unknown" ∨ parses int_ p.1 →
  decade_sel_with int_ p = Return (decade_kept_with int_ p).
Proof.
  intros Hv. unfold decade_kept_with, decade_sel_with.
  destruct (bool_decide (p.1 ≠ "unknown")) eqn:Hu; [|done].
  apply bool_decide_eq_true in Hu.
  destruct Hv as [?|[z Hz]]; [done|]. by rewrite Hz.
Qed.

Lemma decade_key_with_kept (decs : dict DecadeStat) x :
  x ∈ omap (decade_kept_with int_) decs →
  decade_key_with int_ x = Return (key_value_with int_ x).
Proof.
  intros (p & _ & Hp)%list_elem_of_omap.
  unfold decade_kept_with, decade_sel_with in Hp.
  destruct (bool_decide (p.1 ≠ "unknown")); [|done].
  destruct (int_ p.1) as [z|e] eqn:Hz; [|done].
  destruct (bool_decide (z > 0)); [|done].
  injection Hp as <-.
  unfold key_value_with, decade_key_with. simpl. by rewrite Hz.
Qed.

Lemma analyze_decades_with_returns w data d name info :
  heap w !! data = Some (ODict d) → dict_get d name = Some info →
  Forall (λ p, p.1 = "unknown" ∨ parses int_ p.1) (decades info) →
  ∃ l w', analyze_decades_with int_ data name w = (Return (Some l), w').
Proof.
  intros Hd Hn Hv. rewrite (analyze_decades_with_loop _ _ _ _ _ Hd Hn). cbv zeta.
  set (l := fresh (dom (heap w))).
  set (w1 := set_heap (insert l (OList [])) w).
  assert (heap w1 !! l = Some (OList [])) as Hl by apply lookup_insert_eq.
  run_bind. rewrite (for_each_select _ _ _ [] _ Hl).
  rewrite (select_rows_total _ (decade_kept_with int_)).
  2:{ intros p Hp. apply decade_sel_with_parses. by eapply Forall_forall in Hv. }
  simpl. run_bind.
  rewrite (list_sort_run _ l (omap (decade_kept_with int_) (decades info)) _
             (key_value_with int_) false).
  - by eexists _, _.
  - apply lookup_insert_eq.
  - intros x Hx. by apply (decade_key_with_kept (decades info)).
Qed.

Lemma analyze_decades_with_raises w data d name info :
  heap w !! data = Some (ODict d) → dict_get d name = Some info →
  Exists (λ p, p.1 ≠ "unknown" ∧ ∃ e, int_ p.1 = Raise e) (decades info) →
  ∃ p e w', p ∈ decades info ∧ p.1 ≠ "unknown" ∧ int_ p.1 = Raise e ∧
    analyze_decades_with int_ data name w = (Raise e, w') ∧
    stdout w' = stdout w.
Proof.
  intros Hd Hn Hex. rewrite (analyze_decades_with_loop _ _ _ _ _ Hd Hn). cbv zeta.
  set (l := fresh (dom (heap w))).
  set (w1 := set_heap (insert l (OList [])) w).
  assert (heap w1 !! l = Some (OList [])) as Hl by apply lookup_insert_eq.
  destruct (select_rows_raise (decade_sel_with int_) (decades info) [])
    as (p & e & Hp & He & Hr).
  { eapply Exists_impl; [exact Hex|]. intros p [Hu [e He]]. simpl.
    exists e. unfold decade_sel_with.
    by rewrite bool_decide_eq_true_2, He by done. }
  assert (p.1 ≠ "unknown" ∧ int_ p.1 = Raise e) as [Hu Hint].
  { unfold decade_sel_with in He.
    destruct (bool_decide (p.1 ≠ "unknown")) eqn:Hb; [|done].
    apply bool_decide_eq_true in Hb. split; [done|].
    destruct (int_ p.1) as [z|e']; [done|]. congruence. }
  eexists p, e, _. split_and!; [done|done|done| |].
  - run_bind. rewrite (for_each_select _ _ _ [] _ Hl), Hr. done.
  - done.
Qed.

End AnyInt.

(** C9: whatever the built-in [int] accepts, if every decade label of the
    named director is ["unknown"] or is read by [int], the call returns; if
    the director is in the dataset and [int] raises on one of their labels
    other than ["unknown"], the call raises what [int] raises on such a
    label, at the test of the loop, and prints nothing. *)
Theorem analyze_decades_total int_ w data d name :
  heap w !! data = Some (ODict d) →
  ((∀ info, dict_get d name = Some info →
            Forall (λ label, label = "unknown" ∨ parses int_ label)
              (dict_keys (decades info))) →
   ∃ v w', analyze_decades_with int_ data name w = (Return v, w'))
  ∧ (∀ info, dict_get d name = Some info →
       Exists (λ label, label ≠ "unknown" ∧ ¬ parses int_ label)
         (dict_keys (decades info)) →
       ∃ label e w',
         label ∈ dict_keys (decades info) ∧ label ≠ "unknown"
         ∧ int_ label = Raise e
         ∧ analyze_decades_with int_ data name w = (Raise e, w')
         ∧ stdout w' = stdout w).
Proof.
  intros Hd. split.
  - intros Hv. destruct (dict_get d name) as [info|] eqn:Hn.
    + specialize (Hv _ eq_refl). unfold dict_keys in Hv. rewrite Forall_fmap in Hv.
      destruct (analyze_decades_with_returns int_ _ _ _ _ _ Hd Hn Hv) as (l & w' & Hrun).
      by exists (Some l), w'.
    + eexists _, _. by apply (analyze_decades_with_absent int_ _ _ d).
  - intros info Hn Hex. unfold dict_keys in Hex.
    apply Exists_exists in Hex as (label & Hl & Hu & Hlabel).
    apply list_elem_of_fmap in Hl as (p0 & -> & Hp0).
    assert (Exists (λ p, p.1 ≠ "unknown" ∧ ∃ e, int_ p.1 = Raise e) (decades info))
      as Hex.
    { apply Exists_exists. exists p0. split_and!; [done|done|].
      destruct (int_ p0.1) as [z|e] eqn:Hz; [|by exists e].
      destruct Hlabel. by exists z. }
    destruct (analyze_decades_with_raises int_ _ _ _ _ _ Hd Hn Hex)
      as (p & e & w' & Hp & Hpu & Hint & Hr & Hout).
    exists p.1, e, w'. split_and!; [by apply (list_elem_of_fmap_2 fst)|done..].
Qed.

Lemma analyze_decades_total_witness :
  (∃ v w', analyze_decades_with int 1%positive "A" (world_with example_data)
           = (Return v, w'))
  ∧ (∃ label e w',
       label ∈ ["1990"; "199x"] ∧ label ≠ "unknown"
       ∧ int label = Raise e
       ∧ analyze_decades_with int 1%positive "A" (world_with bad_label_data)
         = (Raise e, w')
       ∧ stdout w' = stdout (world_with bad_label_data)).
Proof.
  split.
  - apply (proj1 (analyze_decades_total int (world_with example_data) 1%positive
                    example_data "A" eq_refl)).
    intros info [= <-].
    repeat apply Forall_cons_2;
      [right; by eexists ..|by left|apply Forall_nil_2].
  - apply (proj2 (analyze_decades_total int (world_with bad_label_data) 1%positive
                    bad_label_data "A" eq_refl)
             (mkDirectorRecord 2 (NFloat 8.0)
                [("1990", mkDecadeStat 1 (Some (NFloat 8.0)));
                 ("199x", mkDecadeStat 1 None)]) eq_refl).
    apply Exists_cons_tl, Exists_cons_hd.
    split; [done|]. intros [z H]. discriminate H.
Defined.

(** ** Claims about load_data and main *)

Lemma load_data_ok json_loads path w text d :
  files w !! path = Some (RegularFile text) → json_loads text = Some d →
  load_data json_loads path w
  = (Return (fresh (dom (heap w))),
     set_heap (insert (fresh (dom (heap w))) (ODict d)) w).
Proof.
  intros Hf Hj.
  unfold load_data, load_data_with, try_except, open_read, json_load, mbind, M_bind.
  by rewrite Hf, Hj.
Qed.

(** C3 (amended): whatever the built-ins [open] and [json.load] do at the
    path.  When both return, [load_data] returns the parsed mapping.  When
    one of them raises [FileNotFoundError], the two lines of the not-found
    diagnostic are printed and the process exits with status 1; when one of
    them raises [JSONDecodeError], the invalid-JSON diagnostic is printed
    and the process exits with status 1.  Any other exception, such as
    [IsADirectoryError], [NotADirectoryError], [PermissionError] or
    [UnicodeDecodeError], propagates out of [load_data], which prints
    nothing. *)
Theorem load_data_outcomes {F} (open_ : string → M F) (json_load_ : F → M loc)
    path w :
  (∀ f w1 d w2,
     open_ path w = (Return f, w1) → json_load_ f w1 = (Return d, w2) →
     load_data_with open_ json_load_ path w = (Return d, w2))
  ∧ (∀ e w1,
       open_ path w = (Raise e, w1)
       ∨ (∃ f w0, open_ path w = (Return f, w0) ∧ json_load_ f w0 = (Raise e, w1)) →
       match e with
       | FileNotFoundError _ =>
           load_data_with open_ json_load_ path w
           = (Raise (SystemExit 1), with_stdout w1 (not_found_messages path))
           ∧ exit_status (load_data_with open_ json_load_ path w).1 = 1
       | JSONDecodeError =>
           load_data_with open_ json_load_ path w
           = (Raise (SystemExit 1), with_stdout w1 [invalid_message path])
           ∧ exit_status (load_data_with open_ json_load_ path w).1 = 1
       | _ => load_data_with open_ json_load_ path w = (Raise e, w1)
       end).
Proof.
  split.
  - intros f w1 d w2 Hopen Hload.
    unfold load_data_with, try_except, mbind, M_bind. by rewrite Hopen, Hload.
  - intros e w1 Hbody.
    assert ((f ← open_ path; json_load_ f) w = (Raise e, w1)) as Hraise.
    { destruct Hbody as [Hopen|(f & w0 & Hopen & Hload)].
      - by apply bind_raise.
      - by rewrite (bind_run _ _ _ _ _ Hopen). }
    unfold load_data_with, try_except. rewrite Hraise.
    unfold with_stdout, not_found_messages, invalid_message, sys_exit, raise,
      mbind, M_bind, print.
    destruct e; simpl; try done; by rewrite <-?app_assoc.
Qed.

Lemma load_data_outcomes_witness :
  load_data_with open_read (json_load (λ _, Some example_data))
    "/app/data/integrated_directors.json" example_disk
  = (Return 1%positive,
     set_heap (insert 1%positive (ODict example_data)) example_disk)
  ∧ load_data_with open_read (json_load (λ _, Some example_data))
      "/app/data/integrated_directors.json/x" example_disk
    = (Raise (NotADirectoryError "/app/data/integrated_directors.json/x"),
       example_disk)
  ∧ (load_data_with open_read (json_load (λ _, Some example_data))
       "/app/missing.json" example_disk
     = (Raise (SystemExit 1),
        with_stdout example_disk (not_found_messages "/app/missing.json"))
     ∧ exit_status
         (load_data_with open_read (json_load (λ _, Some example_data))
            "/app/missing.json" example_disk).1 = 1)
  ∧ (load_data_with open_read (json_load (λ _, None))
       "/app/data/integrated_directors.json" example_disk
     = (Raise (SystemExit 1),
        with_stdout example_disk
          [invalid_message "/app/data/integrated_directors.json"])
     ∧ exit_status
         (load_data_with open_read (json_load (λ _, None))
            "/app/data/integrated_directors.json" example_disk).1 = 1).
Proof.
  split; [|split; [|split]].
  - apply (proj1 (load_data_outcomes open_read (json_load (λ _, Some example_data))
                    "/app/data/integrated_directors.json" example_disk)
             (TextFile "{}") example_disk); reflexivity.
  - apply (proj2 (load_data_outcomes open_read (json_load (λ _, Some example_data))
                    "/app/data/integrated_directors.json/x" example_disk)
             (NotADirectoryError "/app/data/integrated_directors.json/x") example_disk).
    left. reflexivity.
  - apply (proj2 (load_data_outcomes open_read (json_load (λ _, Some example_data))
                    "/app/missing.json" example_disk)
             (FileNotFoundError "/app/missing.json") example_disk).
    left. reflexivity.
  - apply (proj2 (load_data_outcomes open_read (json_load (λ _, None))
                    "/app/data/integrated_directors.json" example_disk)
             JSONDecodeError example_disk).
    right. exists (TextFile "{}"), example_disk. split; reflexivity.
Defined.

(** C3 as stated fails at a path that is a directory: it is not a readable
    file, yet [load_data] neither prints a diagnostic and exits nor returns a
    mapping; the [IsADirectoryError] of [open] escapes it. *)
Lemma load_data_directory_uncaught :
  files dir_world !! "/data" = Some Directory
  ∧ load_data (λ _, Some []) "/data" dir_world
    = (Raise (IsADirectoryError "/data"), dir_world)
  ∧ ¬ (∃ code w', load_data (λ _, Some []) "/data" dir_world
                  = (Raise (SystemExit code), w')
                  ∧ code ≠ 0 ∧ stdout w' ≠ stdout dir_world)
  ∧ ¬ (∃ l w', load_data (λ _, Some []) "/data" dir_world = (Return l, w')).
Proof.
  assert (load_data (λ _, Some []) "/data" dir_world
          = (Raise (IsADirectoryError "/data"), dir_world)) as Hrun
    by (vm_compute; reflexivity).
  split_and!; [reflexivity|exact Hrun| |].
  - intros (code & w' & H & _). rewrite Hrun in H. discriminate H.
  - intros (l & w' & H). rewrite Hrun in H. discriminate H.
Qed.






(** * Further properties *)

(** ** Dictionaries *)

Lemma dict_get_elem_of {V} (d : dict V) k v :
  dict_wf d → (k, v) ∈ d → dict_get d k = Some v.
Proof.
  unfold dict_wf, dict_keys. induction d as [|[k' v'] d IH]; intros Hwf Hin.
  - by apply elem_of_nil in Hin.
  - rewrite fmap_cons in Hwf. apply NoDup_cons in Hwf as [Hk' Hwf]. simpl in *.
    apply elem_of_cons in Hin as [[= -> ->]|Hin].
    + by rewrite decide_True.
    + rewrite decide_False; [by apply IH|].
      intros ->. apply Hk'. by apply (list_elem_of_fmap_2 fst) in Hin.
Qed.

Lemma dict_get_Some_elem_of {V} (d : dict V) k v :
  dict_get d k = Some v → (k, v) ∈ d.
Proof.
  induction d as [|[k' v'] d IH]; simpl; [done|].
  case_decide as Hk.
  - intros [= ->]. subst. left.
  - intros H. right. by apply IH.
Qed.

(** ** More about analyze_directors *)

(** X1: for a non-negative [n] the call returns exactly [min n q] entries,
    [q] being the number of directors whose count is positive. *)
Theorem top_directors_length w data d n :
  heap w !! data = Some (ODict d) → 0 ≤ n →
  ∃ res, top_directors data n w = Some res
    ∧ length res = Nat.min (Z.to_nat n) (length (filter qualifies d)).
Proof.
  intros Hd Hn. exists (slice_to (ranking d) n).
  split; [by apply top_directors_eq|].
  unfold slice_to. rewrite decide_False by lia.
  by rewrite length_take, ranking_perm, length_fmap.
Qed.

Lemma top_directors_length_witness :
  ∃ res, top_directors 1%positive 2 (world_with tie_data) = Some res
    ∧ length res = Nat.min (Z.to_nat 2) (length (filter qualifies tie_data)).
Proof.
  apply (top_directors_length (world_with tie_data) 1%positive tie_data 2);
    [reflexivity | lia].
Defined.

(** X2: whatever [n] is, the entries the call leaves out are no better than
    the ones it returns: the result and the rest make up all the qualifying
    rows, and no row of the rest has a larger count than a returned one. *)
Theorem top_directors_best w data d n res :
  heap w !! data = Some (ODict d) →
  top_directors data n w = Some res →
  ∃ rest, res ++ rest ≡ₚ director_row <$> filter qualifies d
    ∧ ∀ a b, a ∈ res → b ∈ rest → row_count b ≤ row_count a.
Proof.
  intros Hd Hres.
  rewrite (top_directors_eq _ _ _ _ Hd) in Hres. injection Hres as <-.
  destruct (slice_to_take (ranking d) n) as [m ->].
  exists (drop m (ranking d)). split.
  - rewrite take_drop. apply ranking_perm.
  - intros a b Ha Hb.
    pose proof (ranking_sorted d) as Hs. rewrite <-(take_drop m (ranking d)) in Hs.
    by apply (StronglySorted_app_1_elem_of _ _ _ a b Hs).
Qed.

Lemma top_directors_best_witness :
  ∃ rest,
    [DirectorRow "Y" 5 (NFloat 8.1)] ++ rest
      ≡ₚ director_row <$> filter qualifies tie_data
    ∧ ∀ a b, a ∈ [DirectorRow "Y" 5 (NFloat 8.1)] → b ∈ rest →
             row_count b ≤ row_count a.
Proof.
  apply (top_directors_best (world_with tie_data) 1%positive tie_data 1);
    [reflexivity | vm_compute; reflexivity].
Defined.

Lemma ranking_sublist_names d res :
  res `sublist_of` ranking d → dict_wf d → NoDup (row_label <$> res).
Proof.
  intros Hsub Hwf.
  eapply sublist_NoDup; [|apply fmap_sublist, Hsub].
  rewrite ranking_perm, <-list_fmap_compose.
  eapply sublist_NoDup; [exact Hwf|].
  unfold dict_keys. apply fmap_sublist, sublist_filter.
Qed.

(** X3: when the names of the dataset are pairwise distinct, as the keys of
    a dictionary are, so are the names of the returned entries. *)
Theorem top_directors_names_distinct w data d n res :
  heap w !! data = Some (ODict d) → dict_wf d →
  top_directors data n w = Some res →
  NoDup (row_label <$> res).
Proof.
  intros Hd Hwf Hres.
  rewrite (top_directors_eq _ _ _ _ Hd) in Hres. injection Hres as <-.
  destruct (slice_to_take (ranking d) n) as [m ->].
  apply (ranking_sublist_names d); [apply sublist_take|done].
Qed.

Lemma top_directors_names_distinct_witness :
  NoDup (row_label <$> [DirectorRow "Y" 5 (NFloat 8.1); DirectorRow "X" 3 (NFloat 7.5)]).
Proof.
  apply (top_directors_names_distinct (world_with tie_data) 1%positive tie_data 2);
    [reflexivity | unfold dict_wf; compute_done | vm_compute; reflexivity].
Defined.

(** X4: an entry returned for a name reports the count and the average
    rating that the dataset holds for that name, and that count is
    positive. *)
Theorem top_directors_lookup w data d n res name count avg :
  heap w !! data = Some (ODict d) → dict_wf d →
  top_directors data n w = Some res →
  DirectorRow name count avg ∈ res →
  ∃ info, dict_get d name = Some info
    ∧ count = count_in_top1000 info
    ∧ avg = avg_rating_top1000 info
    ∧ count > 0.
Proof.
  intros Hd Hwf Hres Hin.
  rewrite (top_directors_eq _ _ _ _ Hd) in Hres. injection Hres as <-.
  destruct (slice_to_take (ranking d) n) as [m Hm]. rewrite Hm in Hin.
  assert (DirectorRow name count avg ∈ ranking d) as Hrank
    by (eapply elem_of_sublist; [exact Hin|apply sublist_take]).
  pose proof (ranking_qualify d) as Hq.
  eapply Forall_forall in Hq as ([k info] & Hp & Hpos & Heq); [|exact Hrank].
  injection Heq as -> -> ->. exists info.
  split_and!; [by apply dict_get_elem_of|done|done|done].
Qed.

Lemma top_directors_lookup_witness :
  ∃ info, dict_get tie_data "X" = Some info
    ∧ 3 = count_in_top1000 info
    ∧ NFloat 7.5 = avg_rating_top1000 info
    ∧ 3 > 0.
Proof.
  apply (top_directors_lookup (world_with tie_data) 1%positive tie_data 2
           [DirectorRow "Y" 5 (NFloat 8.1); DirectorRow "X" 3 (NFloat 7.5)]);
    [reflexivity | unfold dict_wf; compute_done | vm_compute; reflexivity
    | right; left].
Defined.

(** X5: a call on a dataset prints nothing, draws nothing, touches no file,
    and the list it returns is an object that did not exist before the
    call. *)
Theorem analyze_directors_quiet w data d n :
  heap w !! data = Some (ODict d) →
  ∃ r w', analyze_directors data n w = (Return r, w')
    ∧ heap w !! r = None
    ∧ stdout w' = stdout w ∧ files w' = files w ∧ figures w' = figures w.
Proof.
  intros Hd. eexists _, _. split; [by apply analyze_directors_run|].
  split_and!; try done.
  pose proof (fresh_heap_None (<[fresh (dom (heap w)) := OList (ranking d)]> (heap w)))
    as Hfresh.
  by apply lookup_insert_None in Hfresh as [Hfresh _].
Qed.

Lemma analyze_directors_quiet_witness :
  ∃ r w', analyze_directors 1%positive 2 (world_with tie_data) = (Return r, w')
    ∧ heap (world_with tie_data) !! r = None
    ∧ stdout w' = stdout (world_with tie_data)
    ∧ files w' = files (world_with tie_data)
    ∧ figures w' = figures (world_with tie_data).
Proof.
  apply (analyze_directors_quiet (world_with tie_data) 1%positive tie_data 2).
  reflexivity.
Defined.

(** ** More about analyze_decades *)

(** X6: the list the call returns has exactly one entry for each decade of
    the director whose label is not ["unknown"] and reads as a positive
    integer; none of these is dropped. *)
Theorem decades_for_complete w data d name res :
  heap w !! data = Some (ODict d) →
  decades_for data name w = Some res →
  ∃ info, dict_get d name = Some info
    ∧ res ≡ₚ decade_row <$> filter keeps (decades info)
    ∧ ∀ label stat z,
        (label, stat) ∈ decades info → label ≠ "unknown" →
        py_int label = Some z → z > 0 →
        DecadeRow label (ds_count stat) (default (NInt 0) (ds_avg_rating stat)) ∈ res.
Proof.
  intros Hd Hres.
  destruct (decades_for_Some _ _ _ _ _ Hd Hres) as (info & Hn & ->).
  exists info. split_and!; [done|apply decades_sorted_perm|].
  intros label stat z Hin Hu Hz Hpos.
  rewrite decades_sorted_perm.
  apply (list_elem_of_fmap_2 decade_row _ (label, stat)).
  apply list_elem_of_filter. split; [|done].
  split; [done|]. unfold decade_value. simpl. by rewrite Hz.
Qed.

Lemma decades_for_complete_witness :
  ∃ info, dict_get example_data "A" = Some info
    ∧ [DecadeRow "1990" 3 (NFloat 8.0); DecadeRow "2000" 2 (NFloat 8.5)]
        ≡ₚ decade_row <$> filter keeps (decades info)
    ∧ ∀ label stat z,
        (label, stat) ∈ decades info → label ≠ "unknown" →
        py_int label = Some z → z > 0 →
        DecadeRow label (ds_count stat) (default (NInt 0) (ds_avg_rating stat))
          ∈ [DecadeRow "1990" 3 (NFloat 8.0); DecadeRow "2000" 2 (NFloat 8.5)].
Proof.
  apply (decades_for_complete (world_with example_data) 1%positive example_data "A");
    [reflexivity | vm_compute; reflexivity].
Defined.

(** X7: the sort of the decades is stable too: two returned entries whose
    labels read as the same integer, in the order [a], [b], come from two
    decades that the director's record iterates in that order. *)
Theorem decades_for_stable w data d name res a b :
  heap w !! data = Some (ODict d) →
  decades_for data name w = Some res →
  decade_num a = decade_num b →
  [a; b] `sublist_of` res →
  ∃ info, dict_get d name = Some info
    ∧ [a; b] `sublist_of` decade_row <$> decades info.
Proof.
  intros Hd Hres Hab Hsub.
  destruct (decades_for_Some _ _ _ _ _ Hd Hres) as (info & Hn & ->).
  exists info. split; [done|].
  apply (sublist_filter_mono (λ r, decade_num r = decade_num b)) in Hsub.
  unfold decades_sorted in Hsub. rewrite sort_with_stable in Hsub.
  rewrite filter_cons_True, filter_cons_True, filter_nil in Hsub by done.
  etrans; [exact Hsub|].
  etrans; [apply sublist_filter|].
  unfold decades_list. apply fmap_sublist, sublist_filter.
Qed.

Lemma decades_for_stable_witness :
  ∃ info, dict_get same_decade_data "A" = Some info
    ∧ [DecadeRow "1990" 1 (NFloat 8.0); DecadeRow "01990" 1 (NInt 0)]
        `sublist_of` decade_row <$> decades info.
Proof.
  apply (decades_for_stable (world_with same_decade_data) 1%positive
           same_decade_data "A"
           [DecadeRow "1990" 1 (NFloat 8.0); DecadeRow "01990" 1 (NInt 0)]);
    [reflexivity | vm_compute; reflexivity | reflexivity | reflexivity].
Defined.

(** X8: on a dataset, the call returns [None] exactly when the name is not
    a key of the dataset; and when it returns a list, even an empty one, it
    has printed nothing and the list is a new object. *)
Theorem analyze_decades_None_iff w data d name :
  heap w !! data = Some (ODict d) →
  ((analyze_decades data name w).1 = Return None ↔ dict_get d name = None)
  ∧ ∀ l w', analyze_decades data name w = (Return (Some l), w') →
      stdout w' = stdout w ∧ heap w !! l = None.
Proof.
  intros Hd.
  destruct (dict_get d name) as [info|] eqn:Hn.
  - destruct (decide (Forall (λ p, valid_label p.1) (decades info))) as [Hv|Hv].
    + rewrite (analyze_decades_run _ _ _ _ _ Hd Hn Hv). simpl. split.
      * split; intros H; discriminate H.
      * intros l w' [= <- <-]. split; [done|apply fresh_heap_None].
    + apply not_Forall_Exists in Hv; [|apply _].
      destruct (analyze_decades_raise _ _ _ _ _ Hd Hn Hv) as (p & w1 & _ & _ & Hr & _).
      rewrite Hr. simpl. split.
      * split; intros H; discriminate H.
      * intros l w' H. discriminate H.
  - rewrite (analyze_decades_absent _ _ _ _ Hd Hn). simpl. split; [done|].
    intros l w' H. discriminate H.
Qed.

Lemma analyze_decades_None_iff_witness :
  ((analyze_decades 1%positive "B" (world_with example_data)).1 = Return None
   ↔ dict_get example_data "B" = None)
  ∧ ∀ l w', analyze_decades 1%positive "B" (world_with example_data)
            = (Return (Some l), w') →
      stdout w' = stdout (world_with example_data)
      ∧ heap (world_with example_data) !! l = None.
Proof.
  apply (analyze_decades_None_iff (world_with example_data) 1%positive example_data "B").
  reflexivity.
Defined.

(** ** The renderers *)

Lemma map_result_row_name rows :
  Forall is_director_row rows → map_result row_name rows = Return (row_label <$> rows).
Proof.
  intros H. apply map_result_total. intros r Hr.
  eapply Forall_forall in H; [|exact Hr]. by destruct r.
Qed.

Lemma map_result_row_decade rows :
  Forall is_decade_row rows → map_result row_decade rows = Return (row_label <$> rows).
Proof.
  intros H. apply map_result_total. intros r Hr.
  eapply Forall_forall in H; [|exact Hr]. by destruct r.
Qed.

Lemma save_and_show_ok savefig c out w :
  (∀ p, save_target out = Some p → savefig p c = None) →
  save_and_show savefig c out w = (Return (), rendered w c out).
Proof.
  intros Hsave. unfold save_and_show, rendered, save_target in *.
  unfold os_makedirs, plt_savefig, mbind, M_bind.
  destruct out as [p|]; [|done].
  destruct (truthy p); [|done].
  rewrite (Hsave p eq_refl). unfold record_figure, print, saved_files. simpl.
  by rewrite <-app_assoc.
Qed.

Lemma save_and_show_fail savefig c out w p e :
  save_target out = Some p → savefig p c = Some e →
  ∃ w', save_and_show savefig c out w = (Raise e, w')
    ∧ heap w' = heap w ∧ stdout w' = stdout w ∧ figures w' = figures w.
Proof.
  intros Hp He. unfold save_and_show, save_target in *.
  unfold os_makedirs, plt_savefig, mbind, M_bind.
  destruct out as [q|]; [|done].
  destruct (truthy q); [|done].
  injection Hp as ->. rewrite He.
  destruct (dirs_blocked (dirname p) (files w)); by eexists.
Qed.


Lemma visualize_director_decades_ok savefig v name out w rows :
  heap w !! v = Some (OList rows) → rows ≠ [] → Forall is_decade_row rows →
  (∀ p, save_target out = Some p → savefig p (decades_chart name rows) = None) →
  visualize_director_decades savefig (Some v) name out w
  = (Return (), rendered w (decades_chart name rows) out).
Proof.
  intros Hv Hne Hrows Hsave. unfold visualize_director_decades, get_rows.
  rewrite (bind_run _ _ _ _ _ (get_list_run _ _ _ Hv)).
  rewrite bool_decide_eq_false_2 by done.
  run_bind. unfold lift. rewrite (map_result_row_decade _ Hrows).
  by apply save_and_show_ok.
Qed.

Lemma make_dirs_dir d fs : d ≠ "" → make_dirs d fs !! d = Some Directory.
Proof.
  intros Hd. unfold make_dirs. rewrite bool_decide_eq_false_2 by done. simpl.
  apply lookup_insert_eq.
Qed.

Lemma drop_while_length f s : (length (drop_while f s) ≤ length s)%nat.
Proof. induction s as [|c s IH]; simpl; [done|]. destruct (f c); simpl; lia. Qed.

Lemma has_format_last p :
  has_format p = true →
  ∃ c r, reverse (list_ascii_of_string p) = c :: r ∧ is_sep c = false.
Proof.
  unfold has_format, file_ext.
  destruct (reverse (list_ascii_of_string p)) as [|c r]; [done|].
  simpl. destruct (is_sep c) eqn:Hc; [done|]. by eexists _, _.
Qed.

Lemma has_format_dirname p : has_format p = true → dirname p ≠ p.
Proof.
  intros (c & r & Hr & Hc)%has_format_last Heq.
  apply (f_equal list_ascii_of_string), (f_equal length) in Heq.
  assert (length (list_ascii_of_string p) = S (length r)) as Hlen
    by (by rewrite <-(length_reverse (list_ascii_of_string p)), Hr).
  unfold dirname in Heq. rewrite Hr in Heq. simpl in Heq. rewrite Hc in Heq.
  simpl in Heq.
  pose proof (drop_while_length (λ c, negb (is_sep c)) r) as H1.
  pose proof (drop_while_length is_sep (drop_while (λ c, negb (is_sep c)) r)) as H2.
  destruct (forallb is_sep (drop_while (λ c, negb (is_sep c)) r));
    rewrite list_ascii_of_string_of_list_ascii, length_reverse in Heq; lia.
Qed.

Lemma saved_files_spec p c fs :
  has_format p = true →
  saved_files p c fs !! p = Some (ImageFile c)
  ∧ (dirname p ≠ "" → saved_files p c fs !! dirname p = Some Directory).
Proof.
  intros Hp. unfold saved_files, figure_file. rewrite Hp. split.
  - apply lookup_insert_eq.
  - intros Hd. rewrite lookup_insert_ne by (symmetry; by apply has_format_dirname).
    by apply make_dirs_dir.
Qed.



(** X10: given a view of director rows and a non-empty output path, when
    writing the figure fails, the exception leaves
    [visualize_top_directors]: the figure is not shown, the confirmation is
    not printed, and the heap is as before the call. *)
Theorem visualize_top_directors_save_fails savefig v out w rows p e :
  heap w !! v = Some (OList rows) → Forall is_director_row rows →
  out = Some p → p ≠ "" →
  savefig p (top_chart rows) = Some e →
  ∃ w', visualize_top_directors savefig v out w = (Raise e, w')
    ∧ heap w' = heap w ∧ stdout w' = stdout w ∧ figures w' = figures w.
Proof.
  intros Hv Hrows -> Hp He.
  unfold visualize_top_directors, get_rows.
  rewrite (bind_run _ _ _ _ _ (get_list_run _ _ _ Hv)).
  run_bind. unfold lift. rewrite (map_result_row_name _ Hrows).
  apply (save_and_show_fail _ _ _ _ p); [|done].
  unfold save_target, truthy. by rewrite bool_decide_eq_false_2.
Qed.

Lemma visualize_top_directors_save_fails_witness :
  ∃ w',
    visualize_top_directors (λ _ _, Some (OSError "read-only file system")) 1%positive
      (Some "out/top.png")
      (mkWorld {[ 1%positive := OList [DirectorRow "Y" 5 (NFloat 8.1)] ]} [] ∅ [])
    = (Raise (OSError "read-only file system"), w')
    ∧ heap w' = {[ 1%positive := OList [DirectorRow "Y" 5 (NFloat 8.1)] ]}
    ∧ stdout w' = [] ∧ figures w' = [].
Proof.
  destruct (visualize_top_directors_save_fails
              (λ _ _, Some (OSError "read-only file system")) 1%positive
              (Some "out/top.png")
              (mkWorld {[ 1%positive := OList [DirectorRow "Y" 5 (NFloat 8.1)] ]} [] ∅ [])
              [DirectorRow "Y" 5 (NFloat 8.1)] "out/top.png"
              (OSError "read-only file system"))
    as (w' & Hrun & Hheap & Hout & Hfigs);
    [reflexivity | by repeat constructor | reflexivity | done | reflexivity |].
  exists w'. split_and!; [exact Hrun|exact Hheap|exact Hout|exact Hfigs].
Defined.

(** X11: given [None] or an empty view, [visualize_director_decades]
    returns at once: whatever the output path and the backend, nothing is
    drawn, saved or printed. *)
Theorem visualize_director_decades_empty savefig decades_data name out w :
  decades_data = None
  ∨ (∃ v, decades_data = Some v ∧ heap w !! v = Some (OList [])) →
  visualize_director_decades savefig decades_data name out w = (Return (), w).
Proof.
  intros [->|(v & -> & Hv)]; [done|].
  unfold visualize_director_decades, get_rows.
  by rewrite (bind_run _ _ _ _ _ (get_list_run _ _ _ Hv)).
Qed.

Lemma visualize_director_decades_empty_witness :
  visualize_director_decades (λ _ _, Some (OSError "disk full")) (Some 1%positive)
    "A" (Some "out/A_decades.png") (mkWorld {[ 1%positive := OList [] ]} [] ∅ [])
  = (Return (), mkWorld {[ 1%positive := OList [] ]} [] ∅ []).
Proof.
  apply (visualize_director_decades_empty _ (Some 1%positive) "A").
  right. exists 1%positive. split; reflexivity.
Defined.

(** X12: given a non-empty view of decade rows, [visualize_director_decades]
    draws one bar and one rating point per entry, in the order of the view,
    under the title made of the director's name followed by
    [: Movies and Ratings by Decade].  With no output path or an empty one
    the figure is only shown, nothing is printed and the files are as
    before.  With a non-empty output path, and a save that succeeds, the
    figure is saved before it is shown and the confirmation is printed;
    afterwards, if the path has a file extension, the path holds the figure
    and the directory part of the path, unless it is empty, is a directory.
    The heap is unchanged in both cases. *)
Theorem visualize_director_decades_shows savefig v name out w rows :
  heap w !! v = Some (OList rows) → rows ≠ [] → Forall is_decade_row rows →
  (∀ p, save_target out = Some p → savefig p (decades_chart name rows) = None) →
  ∃ w' c, visualize_director_decades savefig (Some v) name out w = (Return (), w')
    ∧ c = DecadesChart (name +:+ ": Movies and Ratings by Decade")
            (row_label <$> rows) (row_count <$> rows) (row_avg_rating <$> rows)
    ∧ heap w' = heap w
    ∧ (out = None ∨ out = Some "" →
       figures w' = figures w ++ [Shown c] ∧ stdout w' = stdout w
       ∧ files w' = files w)
    ∧ (∀ p, out = Some p → p ≠ "" →
       figures w' = figures w ++ [Saved p c; Shown c]
       ∧ stdout w' = stdout w ++ ["Visualization saved to " +:+ p]
       ∧ (has_format p = true →
          files w' !! p = Some (ImageFile c)
          ∧ (dirname p ≠ "" → files w' !! dirname p = Some Directory))).
Proof.
  intros Hv Hne Hrows Hsave. eexists _, _.
  split; [by apply visualize_director_decades_ok|]. split; [reflexivity|].
  unfold rendered, save_target, truthy. split_and!.
  - by destruct out as [p|]; [destruct (bool_decide (p = ""))|].
  - by intros [->| ->].
  - intros p -> Hp. rewrite bool_decide_eq_false_2 by done. simpl.
    split_and!; [done|done|]. apply saved_files_spec.
Qed.

Lemma visualize_director_decades_shows_witness :
  ∃ w' c,
    visualize_director_decades (λ _ _, None) (Some 1%positive) "A"
      (Some "out/A_decades.png")
      (mkWorld {[ 1%positive := OList [DecadeRow "1990" 3 (NFloat 8.0)] ]} [] ∅ [])
    = (Return (), w')
    ∧ c = DecadesChart ("A" +:+ ": Movies and Ratings by Decade")
            (row_label <$> [DecadeRow "1990" 3 (NFloat 8.0)])
            (row_count <$> [DecadeRow "1990" 3 (NFloat 8.0)])
            (row_avg_rating <$> [DecadeRow "1990" 3 (NFloat 8.0)])
    ∧ heap w' = {[ 1%positive := OList [DecadeRow "1990" 3 (NFloat 8.0)] ]}
    ∧ figures w' = [] ++ [Saved "out/A_decades.png" c; Shown c]
    ∧ files w' !! "out/A_decades.png" = Some (ImageFile c)
    ∧ files w' !! "out" = Some Directory.
Proof.
  destruct (visualize_director_decades_shows (λ _ _, None) 1%positive "A"
              (Some "out/A_decades.png")
              (mkWorld {[ 1%positive := OList [DecadeRow "1990" 3 (NFloat 8.0)] ]} [] ∅ [])
              [DecadeRow "1990" 3 (NFloat 8.0)])
    as (w' & c & Hrun & Hc & Hheap & _ & Hsaved);
    [reflexivity | done | by repeat constructor | done |].
  destruct (Hsaved "out/A_decades.png" eq_refl) as (Hfigs & _ & Hfiles); [done|].
  destruct (Hfiles eq_refl) as [Himg Hdir].
  exists w', c. split_and!; [exact Hrun|exact Hc|exact Hheap|exact Hfigs|exact Himg|].
  apply Hdir; done.
Defined.

Lemma ranking_director_rows d n : Forall is_director_row (slice_to (ranking d) n).
Proof.
  destruct (slice_to_take (ranking d) n) as [m ->]. apply Forall_take.
  eapply Forall_impl; [apply ranking_qualify|].
  by intros r (p & _ & _ & ->).
Qed.

Lemma decades_sorted_decade_rows info : Forall is_decade_row (decades_sorted info).
Proof.
  rewrite decades_sorted_perm. apply Forall_fmap, Forall_forall. done.
Qed.

Lemma last_render_events fs c out : last (fs ++ render_events c out) = Some (Shown c).
Proof.
  unfold render_events. destruct (save_target out) as [p|].
  - change [Saved p c; Shown c] with ([Saved p c] ++ [Shown c]).
    by rewrite app_assoc, last_snoc.
  - by rewrite last_snoc.
Qed.

Lemma rendered_figures w c out : figures (rendered w c out) = figures w ++ render_events c out.
Proof. unfold rendered, render_events. by destruct (save_target out). Qed.



Lemma rendered_files w c out :
  files (rendered w c out)
  = match save_target out with
    | Some p => saved_files p c (files w)
    | None => files w
    end.
Proof. unfold rendered. by destruct (save_target out). Qed.

(** ** The analyzers followed by their renderers *)



(** X14: for a director of the dataset whose decade labels are ASCII
    strings of at most 4300 characters, each of them ["unknown"] or read by
    [int] as an integer, and at least one of them read as a positive
    integer, and with a backend whose saves succeed: drawing what
    [analyze_decades] returns never fails on a row, and the last chart shown
    is titled with the director's name followed by
    [: Movies and Ratings by Decade] and has its decades in non-decreasing
    order of the integers their labels read as, none of them ["unknown"] and
    all of them positive. *)
Theorem decades_chart_ascending savefig data d name info out w :
  heap w !! data = Some (ODict d) →
  dict_get d name = Some info →
  Forall plain (dict_keys (decades info)) →
  Forall valid_label (dict_keys (decades info)) →
  filter keeps (decades info) ≠ [] →
  (∀ p c, savefig p c = None) →
  ∃ w' labels counts ratings,
    (v ← analyze_decades data name;
     visualize_director_decades savefig v name out) w
    = (Return (), w')
    ∧ last (figures w')
      = Some (Shown (DecadesChart (name +:+ ": Movies and Ratings by Decade")
                       labels counts ratings))
    ∧ length labels = length counts ∧ length ratings = length counts
    ∧ StronglySorted (λ a b, decade_value a ≤ decade_value b) labels
    ∧ Forall (λ label, label ≠ "unknown" ∧ decade_value label > 0) labels.
Proof.
  intros Hd Hn _ Hv Hne Hsave.
  unfold dict_keys in Hv. rewrite Forall_fmap in Hv.
  set (rows := decades_sorted info).
  eexists _, (row_label <$> rows), (row_count <$> rows), (row_avg_rating <$> rows).
  split.
  { rewrite (bind_run _ _ _ _ _ (analyze_decades_run w data d name info Hd Hn Hv)).
    apply (visualize_director_decades_ok savefig _ name out _ rows).
    - apply lookup_insert_eq.
    - intros Hnil. apply Hne. apply (f_equal length) in Hnil.
      unfold rows in Hnil. rewrite decades_sorted_perm, length_fmap in Hnil.
      by destruct (filter keeps (decades info)).
    - apply decades_sorted_decade_rows.
    - intros p _. apply Hsave. }
  split_and!.
  - rewrite rendered_figures. apply last_render_events.
  - by rewrite !length_fmap.
  - by rewrite !length_fmap.
  - eapply StronglySorted_fmap;
      [|exact (StronglySorted_and _ _ _ (decades_sorted_ascending info)
                 (decades_sorted_decade_rows info))].
    intros x y (Hxy & Hx & Hy). by destruct x, y.
  - apply Forall_fmap. unfold rows. rewrite decades_sorted_perm.
    apply Forall_fmap, Forall_forall.
    by intros p [Hk _]%list_elem_of_filter.
Qed.

Lemma decades_chart_ascending_witness :
  ∃ w' labels counts ratings,
    (v ← analyze_decades 1%positive "A";
     visualize_director_decades (λ _ _, None) v "A" None) (world_with example_data)
    = (Return (), w')
    ∧ last (figures w')
      = Some (Shown (DecadesChart ("A" +:+ ": Movies and Ratings by Decade")
                       labels counts ratings))
    ∧ length labels = length counts ∧ length ratings = length counts
    ∧ StronglySorted (λ a b, decade_value a ≤ decade_value b) labels
    ∧ Forall (λ label, label ≠ "unknown" ∧ decade_value label > 0) labels.
Proof.
  apply (decades_chart_ascending (λ _ _, None) 1%positive example_data "A"
           (mkDirectorRecord 5 (NFloat 8.2)
              [("1990", mkDecadeStat 3 (Some (NFloat 8.0)));
               ("2000", mkDecadeStat 2 (Some (NFloat 8.5)));
               ("unknown", mkDecadeStat 1 None)])
           None (world_with example_data));
    [reflexivity | reflexivity | plain_labels | | vm_compute; discriminate | done].
  repeat apply Forall_cons_2; [right; by eexists ..|by left|apply Forall_nil_2].
Defined.

(** ** File names and paths *)

Lemma replace_char_chars old new s :
  list_ascii_of_string (replace_char old new s)
  = (λ c, if decide (c = old) then new else c) <$> list_ascii_of_string s.
Proof. induction s as [|c s IH]; [done|]. simpl. by rewrite IH. Qed.

(** X15: the file name [main] derives from a director's name has the
    length of the name, holds no space and no slash, and is the name itself
    when the name holds neither. *)
Theorem safe_name_clean director :
  String.length (safe_name director) = String.length director
  ∧ ¬ has_char " " (safe_name director)
  ∧ ¬ has_char "/" (safe_name director)
  ∧ (¬ has_char " " director → ¬ has_char "/" director →
     safe_name director = director).
Proof.
  unfold safe_name, has_char. split_and!.
  - induction director as [|c s IH]; [done|]. simpl. by rewrite IH.
  - rewrite !replace_char_chars, <-list_fmap_compose.
    intros Hin. apply list_elem_of_fmap in Hin as (c & Hc & _). simpl in Hc.
    repeat case_decide; congruence.
  - rewrite !replace_char_chars, <-list_fmap_compose.
    intros Hin. apply list_elem_of_fmap in Hin as (c & Hc & _). simpl in Hc.
    repeat case_decide; congruence.
  - induction director as [|c s IH]; [done|]. simpl.
    intros Hsp Hsl.
    apply not_elem_of_cons in Hsp as [Hsp1 Hsp2].
    apply not_elem_of_cons in Hsl as [Hsl1 Hsl2].
    rewrite IH by done.
    rewrite (decide_False (P := c = " "%char)) by done.
    by rewrite (decide_False (P := c = "/"%char)) by done.
Qed.

Lemma safe_name_clean_witness :
  String.length (safe_name "Ang Lee/II") = String.length "Ang Lee/II"
  ∧ ¬ has_char " " (safe_name "Ang Lee/II")
  ∧ ¬ has_char "/" (safe_name "Ang Lee/II")
  ∧ (¬ has_char " " "Ang Lee/II" → ¬ has_char "/" "Ang Lee/II" →
     safe_name "Ang Lee/II" = "Ang Lee/II").
Proof. apply (safe_name_clean "Ang Lee/II"). Defined.

Lemma isabs_app a b : isabs a = true → isabs (a +:+ b) = true.
Proof. intros H. destruct a as [|c a]; [done|]. exact H. Qed.

Lemma path_join_isabs a b : isabs a = true → isabs (path_join a b) = true.
Proof.
  intros Ha. unfold path_join.
  destruct (isabs b) eqn:Hb; [done|].
  destruct (_ || _); by apply isabs_app.
Qed.

(** X16: [main] leaves an absolute [--data] path and an absolute
    [--output_dir] as they are, and resolves a relative one from the
    directory of the script, so that both are absolute when that directory
    is; an empty [--output_dir] stays empty, and then no figure has an
    output path. *)
Theorem main_paths script_dir args :
  (isabs (arg_data args) = true → data_path script_dir args = arg_data args)
  ∧ (isabs (arg_output_dir args) = true →
     output_dir_of script_dir args = arg_output_dir args)
  ∧ (isabs script_dir = true → isabs (data_path script_dir args) = true)
  ∧ (isabs script_dir = true → arg_output_dir args ≠ "" →
     isabs (output_dir_of script_dir args) = true)
  ∧ (arg_output_dir args = "" →
     top_output_path script_dir args = None
     ∧ ∀ director, decade_output_path script_dir args director = None).
Proof.
  unfold data_path, output_dir_of, top_output_path, decade_output_path.
  split_and!.
  - by intros ->.
  - intros ->. by rewrite andb_false_r.
  - intros Hs. destruct (isabs (arg_data args)) eqn:Ha; simpl; [done|].
    by apply path_join_isabs.
  - intros Hs Hne. unfold truthy. rewrite bool_decide_eq_false_2 by done. simpl.
    destruct (isabs (arg_output_dir args)) eqn:Ha; simpl; [done|].
    by apply path_join_isabs.
  - intros Hempty. unfold output_dir_of. rewrite Hempty. by split.
Qed.

Lemma main_paths_witness :
  (isabs (arg_data example_args) = true →
   data_path "/app" example_args = arg_data example_args)
  ∧ (isabs (arg_output_dir example_args) = true →
     output_dir_of "/app" example_args = arg_output_dir example_args)
  ∧ (isabs "/app" = true → isabs (data_path "/app" example_args) = true)
  ∧ (isabs "/app" = true → arg_output_dir example_args ≠ "" →
     isabs (output_dir_of "/app" example_args) = true)
  ∧ (arg_output_dir example_args = "" →
     top_output_path "/app" example_args = None
     ∧ ∀ director, decade_output_path "/app" example_args director = None).
Proof. apply (main_paths "/app" example_args). Defined.

(** ** The driver *)



Lemma load_data_fails json_loads path w :
  (∀ text d, files w !! path = Some (RegularFile text) → json_loads text = Some d →
             False) →
  ∃ e w', load_data json_loads path w = (Raise e, w')
    ∧ exit_status (Raise e : result unit) = 1
    ∧ heap w' = heap w ∧ files w' = files w ∧ figures w' = figures w.
Proof.
  intros Hbad.
  unfold load_data, load_data_with, try_except, open_read, json_load, mbind, M_bind.
  destruct (files w !! path) as [[text| | | |c]|] eqn:Hf; simpl.
  - destruct (json_loads text) as [d|] eqn:Hj; simpl.
    + destruct (Hbad text d); done.
    + by eexists _, _.
  - by eexists _, _.
  - by eexists _, _.
  - by eexists _, _.
  - by eexists _, _.
  - destruct (under_a_file (files w) path); by eexists _, _.
Qed.

(** X17: when the data path is not a file that holds well-formed JSON,
    whether it is missing, unreadable or malformed, [main] stops at the
    load: the process ends with exit status 1, no figure is drawn or saved,
    and the heap and the files are as before. *)
Theorem main_load_failure json_loads savefig script_dir args w :
  (∀ text d, files w !! data_path script_dir args = Some (RegularFile text) →
             json_loads text = Some d → False) →
  ∃ e w', main json_loads savefig script_dir args w = (Raise e, w')
    ∧ exit_status (main json_loads savefig script_dir args w).1 = 1
    ∧ heap w' = heap w ∧ files w' = files w ∧ figures w' = figures w.
Proof.
  intros Hbad.
  assert (∃ e w', main json_loads savefig script_dir args w = (Raise e, w')
            ∧ exit_status (Raise e : result unit) = 1
            ∧ heap w' = heap w ∧ files w' = files w ∧ figures w' = figures w)
    as (e & w' & Hmain & Hrest); [|exists e, w'; by rewrite Hmain].
  unfold main. fold (data_path script_dir args).
  run_bind. unfold print at 1.
  set (w1 := mkWorld _ _ _ _).
  destruct (load_data_fails json_loads (data_path script_dir args) w1)
    as (e & w' & Hrun & Hexit & Hheap & Hfiles & Hfigs); [exact Hbad|].
  rewrite (bind_raise _ _ _ _ _ Hrun). by exists e, w'.
Qed.

Lemma main_load_failure_witness :
  ∃ e w', main (λ _, Some example_data) (λ _ _, None) "/app" example_args dir_world
          = (Raise e, w')
    ∧ exit_status
        (main (λ _, Some example_data) (λ _ _, None) "/app" example_args dir_world).1
      = 1
    ∧ heap w' = heap dir_world ∧ files w' = files dir_world
    ∧ figures w' = figures dir_world.
Proof.
  apply (main_load_failure (λ _, Some example_data) (λ _ _, None) "/app" example_args
           dir_world).
  intros text d H. vm_compute in H. discriminate H.
Defined.














(** X22: when writing the first figure fails, [main] ends on the exception
    of the backend: the process exits with status 1 (the exception not being
    a [SystemExit]), no figure is shown, the director is not analysed, and
    the output stops after the three progress lines. *)
Theorem main_save_failure json_loads savefig script_dir args w text d p e :
  files w !! data_path script_dir args = Some (RegularFile text) →
  json_loads text = Some d →
  save_target (top_output_path script_dir args) = Some p →
  (∀ c, savefig p c = Some e) →
  (∀ code, e ≠ SystemExit code) →
  ∃ w', main json_loads savefig script_dir args w = (Raise e, w')
    ∧ exit_status (main json_loads savefig script_dir args w).1 = 1
    ∧ figures w' = figures w
    ∧ stdout w' = stdout w ++ loading_lines script_dir args.
Proof.
  intros Hf Hj Hp Hsave He.
  assert (∃ w', main json_loads savefig script_dir args w = (Raise e, w')
            ∧ figures w' = figures w
            ∧ stdout w' = stdout w ++ loading_lines script_dir args)
    as (w' & Hmain & Hfigs & Hout).
  { unfold main. fold (data_path script_dir args).
    fold (output_dir_of script_dir args). fold (top_output_path script_dir args).
    run_bind. unfold print at 1.
    set (w1 := mkWorld _ _ _ _).
    rewrite (bind_run _ _ _ _ _ (load_data_ok json_loads _ w1 text d Hf Hj)).
    set (data := fresh (dom (heap w1))).
    run_bind. unfold print at 1.
    run_bind. unfold print at 1.
    set (w3 := mkWorld _ _ _ _).
    assert (heap w3 !! data = Some (ODict d)) as Hd3 by apply lookup_insert_eq.
    rewrite (bind_run _ _ _ _ _ (analyze_directors_run w3 data d _ Hd3)).
    set (top := fresh (dom _)).
    set (w4 := set_heap _ w3).
    assert (heap w4 !! top = Some (OList (slice_to (ranking d) (arg_top_n args))))
      as Htop by apply heap_after_directors_result.
    run_bind. unfold visualize_top_directors, get_rows.
    rewrite (bind_run _ _ _ _ _ (get_list_run _ _ _ Htop)).
    run_bind. unfold lift.
    rewrite (map_result_row_name _ (ranking_director_rows d (arg_top_n args))).
    destruct (save_and_show_fail savefig
                (TopDirectorsChart (row_label <$> slice_to (ranking d) (arg_top_n args))
                   (row_count <$> slice_to (ranking d) (arg_top_n args))
                   (row_avg_rating <$> slice_to (ranking d) (arg_top_n args)))
                (top_output_path script_dir args) w4 p e Hp (Hsave _))
      as (w' & Hrun & _ & Hout' & Hfigs').
    rewrite Hrun. exists w'. split; [reflexivity|]. rewrite Hfigs', Hout'.
    split; [done|].
    unfold loading_lines. simpl. by rewrite <-!app_assoc. }
  exists w'. rewrite Hmain. split_and!; try done.
  simpl. destruct e; try done. by destruct (He code).
Qed.

Lemma main_save_failure_witness :
  ∃ w', main (λ _, Some example_data) (λ _ _, Some (OSError "read-only file system"))
          "/app" example_args example_disk
        = (Raise (OSError "read-only file system"), w')
    ∧ exit_status
        (main (λ _, Some example_data) (λ _ _, Some (OSError "read-only file system"))
           "/app" example_args example_disk).1 = 1
    ∧ figures w' = figures example_disk
    ∧ stdout w' = stdout example_disk ++ loading_lines "/app" example_args.
Proof.
  apply (main_save_failure (λ _, Some example_data)
           (λ _ _, Some (OSError "read-only file system")) "/app" example_args
           example_disk "{}" example_data "/app/examples/top_directors.png");
    [reflexivity | reflexivity | reflexivity | done | done].
Defined.
